(** * download_cisa_kev.py: a shallow embedding and its verified properties

    The script fetches one JSON feed over HTTPS with bounded retries and a
    linear back-off, falls back to the certifi CA bundle when the first fetch
    fails on certificate verification, re-serialises the JSON with two-space
    indentation and writes it to the destination file.

    The embedding follows the source function by function.  Python code that
    performs I/O is written in a small state-and-exception monad over an
    explicit process state (file system and event trace); everything the
    environment decides (what the server answers, whether a CA bundle can
    be loaded, whether certifi is installed, whether the file can be opened
    and written, the limits of the interpreter) is read from a [World]. *)

From Stdlib Require Import PrimFloat SpecFloat FloatOps.
From Stdlib Require Import ZArith QArith String Ascii Lia.
From Stdlib Require Import DecimalString.
From Stdlib Require Import DecimalPos.
From stdpp Require Import gmap strings list.

Local Open Scope Z_scope.
Local Open Scope string_scope.
Local Open Scope list_scope.

(** ** Python values used by the script *)

(** [bytes] objects. *)
Definition bytes := list Byte.byte.

(** [str] objects that carry JSON text: sequences of Unicode code points. *)
Definition pystr := list N.

(** Python's [needle in hay] on strings: substring search, case-sensitive. *)
Fixpoint str_in (needle hay : string) : bool :=
  String.prefix needle hay ||
  match hay with
  | EmptyString => false
  | String _ rest => str_in needle rest
  end.

(** [str(n)] for an integer. *)
Definition str_of_Z (z : Z) : string := NilZero.string_of_int (Z.to_int z).

(** [float(n)] for an integer, as the product of a float and an int
    converts it: the nearest double, ties to even; beyond the range of a
    double the result here is an infinity, where Python raises
    [OverflowError]. *)
Definition float_of_int (n : Z) : float :=
  SF2Prim (binary_normalize prec emax n 0 false).

(** ** Exceptions

    The handler in [main] distinguishes exceptions by class
    ([ssl.SSLError], [urllib.error.URLError]) and by the [reason] attribute.
    [HTTPError] is a subclass of [URLError] whose [reason] is its message. *)

(** The [reason] attribute of a [URLError]. *)
Inductive py_reason :=
| RNone                      (* None *)
| RStr (s : string)          (* a str *)
| RObj (text : string).      (* another object, usually the wrapped OSError
                                instance; [text] is what [str()] gives *)

(** Exception classes that derive neither from [ssl.SSLError] nor from
    [urllib.error.URLError]. *)
Inductive exc_class :=
| TypeError | ImportError | OSError | FileNotFoundError | TimeoutError
| ValueError | OverflowError | RecursionError
| UnicodeDecodeError | UnicodeEncodeError | JSONDecodeError.

Inductive exn :=
| SSLError (text : string)             (* ssl.SSLError or a subclass *)
| URLError (reason : py_reason)        (* urllib.error.URLError itself *)
| HTTPError (code : Z) (msg : string)  (* urllib.error.HTTPError *)
| PyError (cls : exc_class) (text : string).

Definition isinstance_SSLError (e : exn) : bool :=
  match e with SSLError _ => true | _ => false end.

Definition isinstance_URLError (e : exn) : bool :=
  match e with URLError _ | HTTPError _ _ => true | _ => false end.

(** [getattr(e, 'reason', None)]. *)
Definition getattr_reason (e : exn) : py_reason :=
  match e with
  | URLError r => r
  | HTTPError _ msg => RStr msg
  | _ => RNone
  end.

(** Truth value of a reason: [None] and the empty string are false. *)
Definition reason_truthy (r : py_reason) : bool :=
  match r with
  | RNone => false
  | RStr s => negb (String.eqb s "")
  | RObj _ => true
  end.

Definition str_reason (r : py_reason) : string :=
  match r with
  | RNone => "None"
  | RStr s => s
  | RObj text => text
  end.

(** [str(e)]. *)
Definition str_exn (e : exn) : string :=
  match e with
  | SSLError text => text
  | URLError r => "<urlopen error " ++ str_reason r ++ ">"
  | HTTPError code msg => "HTTP Error " ++ str_of_Z code ++ ": " ++ msg
  | PyError _ text => text
  end.

(** ** TLS contexts (lines 31-37 of [download]) *)

Inductive verify_mode_t := CERT_NONE | CERT_REQUIRED.

Inductive trust_roots_t :=
| SystemRoots                  (* the platform's default trust store *)
| CAFileRoots (path : string). (* the certificates of one bundle file *)

Record SSLContext := {
  check_hostname : bool;
  verify_mode : verify_mode_t;
  trust_roots : trust_roots_t
}.

(** The context that [ssl.create_default_context(cafile=...)] returns:
    verification and hostname checking are on; the roots are the given
    bundle, or the system's when no bundle is given.  Loading the bundle can
    fail: see [load_default_context] below. *)
Definition create_default_context (cafile : option string) : SSLContext :=
  {| check_hostname := true;
     verify_mode := CERT_REQUIRED;
     trust_roots := match cafile with
                    | Some path => CAFileRoots path
                    | None => SystemRoots
                    end |}.

(** Truth value of the [cafile] argument: [None] and [''] are false. *)
Definition cafile_truthy (cafile : option string) : bool :=
  match cafile with
  | None => false
  | Some path => negb (String.eqb path "")
  end.

(** The context that lines 31-37 leave in [ctx] when they do not raise;
    [None] is Python's [ctx = None], for which [urlopen] is called without a
    context.  The lines themselves, with the failure of
    [ssl.create_default_context], are [build_context] below. *)
Definition make_ctx (insecure : bool) (cafile : option string)
  : option SSLContext :=
  if insecure then
    let ctx := create_default_context None in
    Some {| check_hostname := false;
            verify_mode := CERT_NONE;
            trust_roots := trust_roots ctx |}
  else if cafile_truthy cafile then
    Some (create_default_context cafile)
  else None.

(** ** The environment *)

(** What [urlopen] hands back when it does not raise. *)
Record response := {
  resp_status : option Z;        (* the [status] attribute, when present *)
  resp_reason : option string;   (* the [reason] attribute, when present *)
  resp_read : bytes + exn        (* what [resp.read()] does *)
}.

Inductive opened :=
| Opened (r : response)
| OpenRaises (e : exn).

(** Lines the script prints. *)
Inductive message :=
| MsgExists (outpath : string)
| MsgRetryCertifi
| MsgFallbackFailed (e2 : exn)
| MsgOriginalError (e : exn)
| MsgDownloadFailed (url : string) (e : exn)
| MsgNotJSON (e : exn)
| MsgWriteFailed (outpath : string) (e : exn)
| MsgSaved (outpath : string).

Definition render (m : message) : string :=
  match m with
  | MsgExists outpath =>
      "Error: '" ++ outpath ++ "' already exists. Use --force to overwrite."
  | MsgRetryCertifi =>
      "SSL verification failed; retrying using certifi CA bundle..."
  | MsgFallbackFailed e2 => "Failed using certifi fallback: " ++ str_exn e2
  | MsgOriginalError e => "Original error: " ++ str_exn e
  | MsgDownloadFailed url e =>
      "Failed to download from " ++ url ++ ": " ++ str_exn e
  | MsgNotJSON e => "Downloaded data is not valid JSON: " ++ str_exn e
  | MsgWriteFailed outpath e =>
      "Failed to write to '" ++ outpath ++ "': " ++ str_exn e
  | MsgSaved outpath => "Saved KEV JSON to '" ++ outpath ++ "'"
  end.

(** What the process does to the outside, in order. *)
Inductive event :=
| EvUrlopen (url : string) (timeout : Z) (ctx : option SSLContext)
| EvSleep (seconds : float)
| EvStderr (m : message)
| EvStdout (m : message).

(** A directory entry. *)
Inductive node :=
| File (content : bytes)
| Dir.

Record state := {
  st_fs : gmap string node;
  st_trace : list event
}.

(** Everything the environment decides.  [w_urlopen] answers a request
    given the events so far, so a server may fail twice and then succeed, or
    accept one trust store and reject another. *)
Record World := {
  w_urlopen : list event -> string -> Z -> option SSLContext -> opened;
  (* what [ssl.create_default_context(cafile=path)] raises when it cannot
     load the bundle: FileNotFoundError for a missing file, ssl.SSLError
     for a file that holds no certificate *)
  w_load_cafile : string -> option exn;
  (* [certifi.where()] when [import certifi] succeeds *)
  w_certifi : option string;
  (* the longest delay [time.sleep] accepts, in seconds: what the clock of
     the platform can hold *)
  w_max_sleep : float;
  (* [sys.get_int_max_str_digits()]: the most digits [int()] converts,
     0 for no limit *)
  w_int_max_str_digits : N;
  (* the deepest nesting [json.loads] parses before it exceeds the
     recursion limit *)
  w_max_nesting : nat;
  (* [open(path, "w")] refused by the system (permissions, missing parent) *)
  w_open_refused : string -> option exn;
  (* what ends the writing of a text to an opened file from outside the
     text: an OSError raised by write, flush or close (disk full), or the
     RecursionError of the encoder on a deeply nested document *)
  w_write_error : string -> pystr -> option exn;
  (* [repr(float(lexeme))] for a JSON number with a fraction or exponent *)
  w_float_repr : pystr -> pystr;
  (* what reached the disk when the writing of this text was cut short;
     depends on the writer's buffering *)
  w_flushed : pystr -> bytes
}.

(** ** The monad: state, exceptions and [sys.exit] *)

Inductive outcome (A : Type) :=
| Ret (a : A)            (* normal completion *)
| Exc (e : exn)          (* an exception deriving from [Exception] *)
| SysExit (code : Z).    (* [SystemExit]: not caught by [except Exception] *)
Arguments Ret {A} a.
Arguments Exc {A} e.
Arguments SysExit {A} code.

Definition M (A : Type) : Type := state -> outcome A * state.

Definition ret {A} (a : A) : M A := fun s => (Ret a, s).

Definition bind {A B} (m : M A) (k : A -> M B) : M B :=
  fun s =>
    match m s with
    | (Ret a, s') => k a s'
    | (Exc e, s') => (Exc e, s')
    | (SysExit c, s') => (SysExit c, s')
    end.

Definition raise {A} (e : exn) : M A := fun s => (Exc e, s).

Definition sys_exit {A} (code : Z) : M A := fun s => (SysExit code, s).

(** [try: m  except Exception as e: h e]. *)
Definition try_except {A} (m : M A) (h : exn -> M A) : M A :=
  fun s =>
    match m s with
    | (Exc e, s') => h e s'
    | r => r
    end.

Global Instance M_ret : MRet M := @ret.
Global Instance M_bind : MBind M := fun A B k m => bind m k.

(** The state after one more event. *)
Definition log_event (ev : event) (s : state) : state :=
  {| st_fs := st_fs s; st_trace := st_trace s ++ [ev] |}.

Definition emit (ev : event) : M unit := fun s => (Ret tt, log_event ev s).

Definition print_stderr (m : message) : M unit := emit (EvStderr m).
Definition print_stdout (m : message) : M unit := emit (EvStdout m).

(** [os.path.exists]. *)
Definition path_exists (path : string) : M bool :=
  fun s => (Ret (bool_decide (is_Some (st_fs s !! path))), s).

(** ** The standard library's JSON codec and UTF-8 codec

    [main] calls [raw.decode("utf-8")], [json.loads] and
    [json.dump(parsed, f, indent=2, ensure_ascii=False)].  They are modelled
    here as CPython implements them, on the values of type [json] below,
    with the two limits of the interpreter that make [json.loads] refuse a
    well-formed text: the digit limit of [int()] and the recursion limit. *)

Module PyJson.

(** Code points of an ASCII literal. *)
Definition cps (s : string) : pystr :=
  map N_of_ascii (list_ascii_of_string s).

Definition byte_of_N (n : N) : Byte.byte := default Byte.x00 (Byte.of_N n).

(** *** UTF-8 *)

Definition is_cont (b : N) : bool := ((0x80 <=? b) && (b <=? 0xBF))%N.
Definition in_range (lo hi b : N) : bool := ((lo <=? b) && (b <=? hi))%N.

(** Strict decoding of well-formed UTF-8 (no overlong forms, no surrogates,
    nothing above U+10FFFF); [None] is [UnicodeDecodeError]. *)
Fixpoint utf8_decode_N (bs : list N) : option pystr :=
  match bs with
  | [] => Some []
  | b0 :: r0 =>
      if (b0 <? 0x80)%N then cons b0 <$> utf8_decode_N r0
      else if in_range 0xC2 0xDF b0 then
        match r0 with
        | b1 :: r1 =>
            if is_cont b1
            then cons ((b0 - 0xC0) * 64 + (b1 - 0x80))%N <$> utf8_decode_N r1
            else None
        | _ => None
        end
      else if in_range 0xE0 0xEF b0 then
        match r0 with
        | b1 :: b2 :: r2 =>
            if in_range (if (b0 =? 0xE0)%N then 0xA0 else 0x80)
                        (if (b0 =? 0xED)%N then 0x9F else 0xBF) b1
               && is_cont b2
            then cons ((b0 - 0xE0) * 4096 + (b1 - 0x80) * 64 + (b2 - 0x80))%N
                   <$> utf8_decode_N r2
            else None
        | _ => None
        end
      else if in_range 0xF0 0xF4 b0 then
        match r0 with
        | b1 :: b2 :: b3 :: r3 =>
            if in_range (if (b0 =? 0xF0)%N then 0x90 else 0x80)
                        (if (b0 =? 0xF4)%N then 0x8F else 0xBF) b1
               && is_cont b2 && is_cont b3
            then cons ((b0 - 0xF0) * 262144 + (b1 - 0x80) * 4096
                       + (b2 - 0x80) * 64 + (b3 - 0x80))%N
                   <$> utf8_decode_N r3
            else None
        | _ => None
        end
      else None
  end.

Definition utf8_decode (raw : bytes) : option pystr :=
  utf8_decode_N (map Byte.to_N raw).

(** Encoding of one code point; surrogates cannot be encoded. *)
Definition utf8_encode_cp (c : N) : option (list N) :=
  if (c <? 0x80)%N then Some [c]
  else if (c <? 0x800)%N then
    Some [0xC0 + c / 64; 0x80 + c mod 64]%N
  else if in_range 0xD800 0xDFFF c then None
  else if (c <? 0x10000)%N then
    Some [0xE0 + c / 4096; 0x80 + (c / 64) mod 64; 0x80 + c mod 64]%N
  else if (c <? 0x110000)%N then
    Some [0xF0 + c / 262144; 0x80 + (c / 4096) mod 64;
          0x80 + (c / 64) mod 64; 0x80 + c mod 64]%N
  else None.

Fixpoint utf8_encode_N (text : pystr) : option (list N) :=
  match text with
  | [] => Some []
  | c :: rest =>
      match utf8_encode_cp c, utf8_encode_N rest with
      | Some bs, Some more => Some (bs ++ more)
      | _, _ => None
      end
  end.

Definition utf8_encode (text : pystr) : option bytes :=
  map byte_of_N <$> utf8_encode_N text.

(** *** JSON values, as [json.loads] builds them *)

Inductive pyfloat :=
| FNaN | FInf | FNegInf
| FLit (lexeme : pystr).   (* [float(lexeme)] *)

Local Unset Elimination Schemes.
Inductive json :=
| JNull
| JBool (b : bool)
| JInt (z : Z)
| JFloat (f : pyfloat)
| JStr (s : pystr)
| JList (items : list json)
| JDict (pairs : list (pystr * json)).   (* a dict, in insertion order *)
Local Set Elimination Schemes.

Definition pystr_eqb (a b : pystr) : bool := bool_decide (a = b).

(** [d[key] = v]: an existing key keeps its position. *)
Fixpoint dict_set (d : list (pystr * json)) (key : pystr) (v : json)
  : list (pystr * json) :=
  match d with
  | [] => [(key, v)]
  | (k, x) :: rest =>
      if pystr_eqb k key then (k, v) :: rest
      else (k, x) :: dict_set rest key v
  end.

(** *** Scanning

    The scanner of [json.loads] is written here as an automaton that reads
    the text once, one code point at a time.  It accepts the token
    language of CPython's scanner: the four whitespace characters, the six
    punctuation marks, strings with the eight short escapes and [\uXXXX]
    (a high surrogate escape directly followed by a low surrogate escape
    is joined into one code point), numbers (an optional minus sign, then
    0 or a digit string that does not start with 0, then an optional
    fraction of a dot and digits, then an optional exponent of e or E, an
    optional sign and digits), and the literals [null], [true], [false],
    [NaN], [Infinity] and [-Infinity]. *)

Inductive token :=
| TLBrace | TRBrace | TLBracket | TRBracket | TColon | TComma
| TStr (s : pystr)
| TScalar (v : json).

Inductive lex_state :=
| LStart
| LLit (expect : pystr) (tok : token)
| LMinus
| LZero (neg : bool)
| LInt (neg : bool) (mag : Z) (lexeme_rev : pystr)
| LFracStart (lexeme_rev : pystr)
| LFrac (lexeme_rev : pystr)
| LExpStart (lexeme_rev : pystr)
| LExpSign (lexeme_rev : pystr)
| LExp (lexeme_rev : pystr)
| LStr (acc_rev : pystr)
| LEsc (acc_rev : pystr)
| LUni (acc_rev : pystr) (k : nat) (v : N)
| LHigh (acc_rev : pystr) (hi : N)
| LHighEsc (acc_rev : pystr) (hi : N)
| LHighUni (acc_rev : pystr) (hi : N) (k : nat) (v : N).

Definition is_ws (c : N) : bool :=
  ((c =? 32) || (c =? 9) || (c =? 10) || (c =? 13))%N.

Definition is_digit (c : N) : bool := in_range 48 57 c.

Definition digit_val (c : N) : Z := Z.of_N (c - 48).

Definition hex_val (c : N) : option N :=
  if in_range 48 57 c then Some (c - 48)%N
  else if in_range 97 102 c then Some (c - 87)%N
  else if in_range 65 70 c then Some (c - 55)%N
  else None.

Definition is_exp_mark (c : N) : bool := ((c =? 101) || (c =? 69))%N.

Definition signed (neg : bool) (mag : Z) : Z := if neg then - mag else mag.

(** The sign of a number, as the start of its reversed lexeme. *)
Definition minus_rev (neg : bool) : pystr := if neg then [45%N] else [].

(** A character seen between tokens. *)
Definition lex_start (c : N) : option (lex_state * list token) :=
  if is_ws c then Some (LStart, [])
  else if (c =? 123)%N then Some (LStart, [TLBrace])
  else if (c =? 125)%N then Some (LStart, [TRBrace])
  else if (c =? 91)%N then Some (LStart, [TLBracket])
  else if (c =? 93)%N then Some (LStart, [TRBracket])
  else if (c =? 58)%N then Some (LStart, [TColon])
  else if (c =? 44)%N then Some (LStart, [TComma])
  else if (c =? 34)%N then Some (LStr [], [])
  else if (c =? 45)%N then Some (LMinus, [])
  else if (c =? 48)%N then Some (LZero false, [])
  else if is_digit c then Some (LInt false (digit_val c) [c], [])
  else if (c =? 110)%N then Some (LLit (cps "ull") (TScalar JNull), [])
  else if (c =? 116)%N then Some (LLit (cps "rue") (TScalar (JBool true)), [])
  else if (c =? 102)%N then
    Some (LLit (cps "alse") (TScalar (JBool false)), [])
  else if (c =? 78)%N then Some (LLit (cps "aN") (TScalar (JFloat FNaN)), [])
  else if (c =? 73)%N then
    Some (LLit (cps "nfinity") (TScalar (JFloat FInf)), [])
  else None.

(** The token [tok] ended just before [c]. *)
Definition emit_then (tok : token) (c : N) : option (lex_state * list token) :=
  '(st, toks) ← lex_start c; Some (st, tok :: toks).

(** A completed [\uXXXX] escape with value [v]. *)
Definition after_escape (acc_rev : pystr) (v : N) : lex_state :=
  if in_range 0xD800 0xDBFF v then LHigh acc_rev v else LStr (v :: acc_rev).

Definition join_surrogates (hi lo : N) : N :=
  (0x10000 + ((hi - 0xD800) * 1024 + (lo - 0xDC00)))%N.

(** Inside a string, outside an escape. *)
Definition lex_str (acc_rev : pystr) (c : N) : option (lex_state * list token) :=
  if (c =? 34)%N then Some (LStart, [TStr (rev acc_rev)])
  else if (c =? 92)%N then Some (LEsc acc_rev, [])
  else if (c <? 32)%N then None
  else Some (LStr (c :: acc_rev), []).

(** Just after a backslash. *)
Definition lex_esc (acc_rev : pystr) (c : N) : option (lex_state * list token) :=
  if (c =? 34)%N then Some (LStr (34%N :: acc_rev), [])
  else if (c =? 92)%N then Some (LStr (92%N :: acc_rev), [])
  else if (c =? 47)%N then Some (LStr (47%N :: acc_rev), [])
  else if (c =? 98)%N then Some (LStr (8%N :: acc_rev), [])
  else if (c =? 102)%N then Some (LStr (12%N :: acc_rev), [])
  else if (c =? 110)%N then Some (LStr (10%N :: acc_rev), [])
  else if (c =? 114)%N then Some (LStr (13%N :: acc_rev), [])
  else if (c =? 116)%N then Some (LStr (9%N :: acc_rev), [])
  else if (c =? 117)%N then Some (LUni acc_rev 0 0%N, [])
  else None.

Definition lex_step (st : lex_state) (c : N) : option (lex_state * list token) :=
  match st with
  | LStart => lex_start c
  | LLit expect tok =>
      match expect with
      | [] => None
      | c' :: rest =>
          if (c =? c')%N then
            match rest with
            | [] => Some (LStart, [tok])
            | _ => Some (LLit rest tok, [])
            end
          else None
      end
  | LMinus =>
      if (c =? 48)%N then Some (LZero true, [])
      else if is_digit c then Some (LInt true (digit_val c) [c; 45%N], [])
      else if (c =? 73)%N then
        Some (LLit (cps "nfinity") (TScalar (JFloat FNegInf)), [])
      else None
  | LZero neg =>
      if (c =? 46)%N then Some (LFracStart (c :: 48%N :: minus_rev neg), [])
      else if is_exp_mark c then
        Some (LExpStart (c :: 48%N :: minus_rev neg), [])
      else emit_then (TScalar (JInt 0)) c
  | LInt neg mag lexeme_rev =>
      if is_digit c then
        Some (LInt neg (10 * mag + digit_val c) (c :: lexeme_rev), [])
      else if (c =? 46)%N then Some (LFracStart (c :: lexeme_rev), [])
      else if is_exp_mark c then Some (LExpStart (c :: lexeme_rev), [])
      else emit_then (TScalar (JInt (signed neg mag))) c
  | LFracStart lexeme_rev =>
      if is_digit c then Some (LFrac (c :: lexeme_rev), []) else None
  | LFrac lexeme_rev =>
      if is_digit c then Some (LFrac (c :: lexeme_rev), [])
      else if is_exp_mark c then Some (LExpStart (c :: lexeme_rev), [])
      else emit_then (TScalar (JFloat (FLit (rev lexeme_rev)))) c
  | LExpStart lexeme_rev =>
      if is_digit c then Some (LExp (c :: lexeme_rev), [])
      else if ((c =? 43) || (c =? 45))%N then
        Some (LExpSign (c :: lexeme_rev), [])
      else None
  | LExpSign lexeme_rev =>
      if is_digit c then Some (LExp (c :: lexeme_rev), []) else None
  | LExp lexeme_rev =>
      if is_digit c then Some (LExp (c :: lexeme_rev), [])
      else emit_then (TScalar (JFloat (FLit (rev lexeme_rev)))) c
  | LStr acc_rev => lex_str acc_rev c
  | LEsc acc_rev => lex_esc acc_rev c
  | LUni acc_rev k v =>
      h ← hex_val c;
      let v' := (16 * v + h)%N in
      if (k =? 3)%nat then Some (after_escape acc_rev v', [])
      else Some (LUni acc_rev (S k) v', [])
  | LHigh acc_rev hi =>
      if (c =? 92)%N then Some (LHighEsc acc_rev hi, [])
      else lex_str (hi :: acc_rev) c
  | LHighEsc acc_rev hi =>
      if (c =? 117)%N then Some (LHighUni acc_rev hi 0 0%N, [])
      else lex_esc (hi :: acc_rev) c
  | LHighUni acc_rev hi k v =>
      h ← hex_val c;
      let v' := (16 * v + h)%N in
      if (k =? 3)%nat then
        if in_range 0xDC00 0xDFFF v'
        then Some (LStr (join_surrogates hi v' :: acc_rev), [])
        else Some (after_escape (hi :: acc_rev) v', [])
      else Some (LHighUni acc_rev hi (S k) v', [])
  end.

(** End of the text: a number may end here, nothing else may be open. *)
Definition lex_finish (st : lex_state) : option (list token) :=
  match st with
  | LStart => Some []
  | LZero _ => Some [TScalar (JInt 0)]
  | LInt neg mag _ => Some [TScalar (JInt (signed neg mag))]
  | LFrac lexeme_rev | LExp lexeme_rev =>
      Some [TScalar (JFloat (FLit (rev lexeme_rev)))]
  | _ => None
  end.

Fixpoint lex (st : lex_state) (text : pystr) : option (list token) :=
  match text with
  | [] => lex_finish st
  | c :: rest =>
      '(st', toks) ← lex_step st c;
      more ← lex st' rest;
      Some (toks ++ more)
  end.

(** *** Parsing

    The grammar is checked with an explicit stack of the containers that
    are still open, one token at a time.  CPython's scanner recurses once
    for every container that is open, and raises [RecursionError] when a
    container is opened inside [max_nesting] others. *)

Inductive frame :=
| FList (items_rev : list json)                  (* inside [[ ... ]] *)
| FDict (d : list (pystr * json)) (key : pystr). (* inside an object, the
                                                    value of [key] is next *)

Inductive parse_state :=
| PValue (stk : list frame)                       (* a value must follow *)
| PListFirst (stk : list frame)                   (* after an opening bracket *)
| PListNext (items_rev : list json) (stk : list frame)
| PDictFirst (stk : list frame)                   (* after an opening brace *)
| PDictKey (d : list (pystr * json)) (stk : list frame)
| PColon (d : list (pystr * json)) (key : pystr) (stk : list frame)
| PDictNext (d : list (pystr * json)) (stk : list frame)
| PDone (v : json).

(** The value [v] is complete: it goes into the innermost open container. *)
Definition plug (v : json) (stk : list frame) : parse_state :=
  match stk with
  | [] => PDone v
  | FList items_rev :: stk' => PListNext (v :: items_rev) stk'
  | FDict d key :: stk' => PDictNext (dict_set d key v) stk'
  end.

Section Parse.

Variable max_nesting : nat.

Definition parse_value (stk : list frame) (t : token) : option parse_state :=
  match t with
  | TScalar v => Some (plug v stk)
  | TStr s => Some (plug (JStr s) stk)
  | TLBracket =>
      if (length stk <? max_nesting)%nat then Some (PListFirst stk) else None
  | TLBrace =>
      if (length stk <? max_nesting)%nat then Some (PDictFirst stk) else None
  | _ => None
  end.

Definition parse_step (st : parse_state) (t : token) : option parse_state :=
  match st with
  | PValue stk => parse_value stk t
  | PListFirst stk =>
      match t with
      | TRBracket => Some (plug (JList []) stk)
      | _ => parse_value (FList [] :: stk) t
      end
  | PListNext items_rev stk =>
      match t with
      | TComma => Some (PValue (FList items_rev :: stk))
      | TRBracket => Some (plug (JList (rev items_rev)) stk)
      | _ => None
      end
  | PDictFirst stk =>
      match t with
      | TRBrace => Some (plug (JDict []) stk)
      | TStr key => Some (PColon [] key stk)
      | _ => None
      end
  | PDictKey d stk =>
      match t with
      | TStr key => Some (PColon d key stk)
      | _ => None
      end
  | PColon d key stk =>
      match t with
      | TColon => Some (PValue (FDict d key :: stk))
      | _ => None
      end
  | PDictNext d stk =>
      match t with
      | TComma => Some (PDictKey d stk)
      | TRBrace => Some (plug (JDict d) stk)
      | _ => None
      end
  | PDone _ => None
  end.

Fixpoint parse (st : parse_state) (toks : list token) : option json :=
  match toks with
  | [] => match st with PDone v => Some v | _ => None end
  | t :: rest => st' ← parse_step st t; parse st' rest
  end.

End Parse.

(** The number of decimal digits of an integer: the digits of its lexeme,
    which has no leading zero. *)
Definition int_digits (z : Z) : nat :=
  length (list_ascii_of_string (str_of_Z (Z.abs z))).

(** [int(lexeme)] converts at most [max_digits] digits, and raises
    [ValueError] on more; 0 stands for no limit. *)
Definition int_within (max_digits : N) (z : Z) : bool :=
  (max_digits =? 0)%N || (N.of_nat (int_digits z) <=? max_digits)%N.

Definition token_within (max_digits : N) (t : token) : bool :=
  match t with
  | TScalar (JInt z) => int_within max_digits z
  | _ => true
  end.

(** [json.loads(text)]: one value, surrounded by optional whitespace; a
    leading byte-order mark is refused.  [None] is the exception raised:
    [JSONDecodeError] on a text that is not JSON, [ValueError] on an
    integer with too many digits, [RecursionError] on too deep a nesting. *)
Definition json_loads (max_digits : N) (max_nesting : nat) (text : pystr)
  : option json :=
  match text with
  | 0xFEFF%N :: _ => None
  | _ =>
      toks ← lex LStart text;
      if forallb (token_within max_digits) toks
      then parse max_nesting (PValue []) toks
      else None
  end.

(** *** Serialising: [json.dumps(v, indent=2, ensure_ascii=False)] *)

Definition hex_digit (n : N) : N := if (n <? 10)%N then (48 + n)%N else (87 + n)%N.

(** One character of a string, as [encode_basestring] writes it: the quote,
    the backslash and the control characters below U+0020 are escaped,
    every other character is written as it is. *)
Definition escape_char (c : N) : pystr :=
  if (c =? 34)%N then [92; 34]%N
  else if (c =? 92)%N then [92; 92]%N
  else if (c =? 10)%N then [92; 110]%N
  else if (c =? 13)%N then [92; 114]%N
  else if (c =? 9)%N then [92; 116]%N
  else if (c =? 8)%N then [92; 98]%N
  else if (c =? 12)%N then [92; 102]%N
  else if (c <? 32)%N then
    [92; 117; 48; 48; hex_digit (c / 16); hex_digit (c mod 16)]%N
  else [c].

Definition encode_basestring (s : pystr) : pystr :=
  [34%N] ++ flat_map escape_char s ++ [34%N].

(** [int.__repr__]. *)
Definition repr_int (z : Z) : pystr := cps (str_of_Z z).

Section Dumps.

Variable float_repr : pystr -> pystr.

Definition floatstr (f : pyfloat) : pystr :=
  match f with
  | FNaN => cps "NaN"
  | FInf => cps "Infinity"
  | FNegInf => cps "-Infinity"
  | FLit lexeme => float_repr lexeme
  end.

(** A line break followed by the indentation of nesting depth [level]. *)
Definition newline_indent (level : nat) : pystr :=
  10%N :: repeat 32%N (2 * level).

(** [sep.join(parts)]. *)
Fixpoint join (sep : pystr) (parts : list pystr) : pystr :=
  match parts with
  | [] => []
  | [x] => x
  | x :: rest => x ++ sep ++ join sep rest
  end.

Fixpoint encode (level : nat) (v : json) {struct v} : pystr :=
  match v with
  | JNull => cps "null"
  | JBool true => cps "true"
  | JBool false => cps "false"
  | JInt z => repr_int z
  | JFloat f => floatstr f
  | JStr s => encode_basestring s
  | JList [] => cps "[]"
  | JList items =>
      [91%N] ++ newline_indent (S level)
      ++ join (44%N :: newline_indent (S level))
              (map (encode (S level)) items)
      ++ newline_indent level ++ [93%N]
  | JDict [] => cps "{}"
  | JDict pairs =>
      [123%N] ++ newline_indent (S level)
      ++ join (44%N :: newline_indent (S level))
              (map (fun kv => encode_basestring (fst kv) ++ [58; 32]%N
                              ++ encode (S level) (snd kv)) pairs)
      ++ newline_indent level ++ [125%N]
  end.

Definition json_dumps (v : json) : pystr := encode 0 v.

End Dumps.

End PyJson.

Section Program.

Variable w : World.

(** [urllib.request.urlopen(url, timeout=timeout[, context=ctx])]. *)
Definition urlopen (url : string) (timeout : Z) (ctx : option SSLContext)
  : M response :=
  fun s =>
    let s' := log_event (EvUrlopen url timeout ctx) s in
    match w_urlopen w (st_trace s) url timeout ctx with
    | Opened r => (Ret r, s')
    | OpenRaises e => (Exc e, s')
    end.

(** [time.sleep(secs)]: a delay that is not a number, is too long for the
    clock or is negative is refused, in this order, before any time
    passes. *)
Definition sleep_error (secs : float) : option exn :=
  if PrimFloat.is_nan secs then
    Some (PyError ValueError "Invalid value NaN (not a number)")
  else if (w_max_sleep w <? PrimFloat.abs secs)%float then
    Some (PyError OverflowError "timestamp too large to convert to C _PyTime_t")
  else if (secs <? 0)%float then
    Some (PyError ValueError "sleep length must be non-negative")
  else None.

Definition sleep (secs : float) : M unit :=
  match sleep_error secs with
  | Some e => raise e
  | None => emit (EvSleep secs)
  end.

(** [x * n] for a float [x] and an int [n]: [n] is converted to a float,
    which raises on an int beyond the range of a double, and the product is
    the product of doubles, rounded to the nearest. *)
Definition float_mul_int (x : float) (n : Z) : M float :=
  let y := float_of_int n in
  if PrimFloat.is_infinity y then
    raise (PyError OverflowError "int too large to convert to float")
  else mret (x * y)%float.

(** [ssl.create_default_context(cafile=cafile)].  With a bundle, the call
    loads it and raises when it cannot; without one it takes the default
    store of the platform, which is not read at this point. *)
Definition load_default_context (cafile : option string) : M SSLContext :=
  match cafile with
  | Some path =>
      match w_load_cafile w path with
      | Some e => raise e
      | None => mret (create_default_context cafile)
      end
  | None => mret (create_default_context None)
  end.

(** ** [download] (lines 23-57) *)

(** Lines 31-37: the context, before the loop and outside its [try]. *)
Definition build_context (cafile : option string) (insecure : bool)
  : M (option SSLContext) :=
  let ctx := None in
  if insecure then
    ctx ← load_default_context None;
    mret (Some {| check_hostname := false;
                  verify_mode := CERT_NONE;
                  trust_roots := trust_roots ctx |})
  else if cafile_truthy cafile then
    ctx ← load_default_context cafile;
    mret (Some ctx)
  else mret ctx.

(** The body of the [with] block: the status check and the read. *)
Definition with_resp (url : string) (resp : response) : M bytes :=
  if negb (default 200 (resp_status resp) =? 200)%Z then
    raise (HTTPError (default 0 (resp_status resp))
                     (default "" (resp_reason resp)))
  else
    match resp_read resp with
    | inl body => ret body
    | inr e => raise e
    end.

(** The body of the [try] block: one attempt.  The two branches of
    [if ctx is not None] differ only in passing the context. *)
Definition attempt_once (url : string) (timeout : Z)
    (ctx : option SSLContext) : M bytes :=
  match ctx with
  | Some c => resp ← urlopen url timeout (Some c); with_resp url resp
  | None => resp ← urlopen url timeout None; with_resp url resp
  end.

(** [raise last_exc]; raising [None] is a [TypeError]. *)
Definition raise_last {A} (last_exc : option exn) : M A :=
  match last_exc with
  | Some e => raise e
  | None => raise (PyError TypeError "exceptions must derive from BaseException")
  end.

(** [range(1, retries + 1)]. *)
Definition range_attempts (retries : Z) : list Z :=
  map Z.of_nat (seq 1 (Z.to_nat retries)).

(** The [for] loop over the remaining attempt numbers, followed by the
    final [raise last_exc].  What the handler raises, the product or the
    sleep, leaves the loop and the function. *)
Fixpoint download_loop (url : string) (timeout retries : Z) (backoff : float)
    (ctx : option SSLContext) (attempts : list Z) (last_exc : option exn)
  : M bytes :=
  match attempts with
  | [] => raise_last last_exc
  | attempt :: rest =>
      try_except (attempt_once url timeout ctx)
        (fun e =>
           let last_exc := Some e in
           if (attempt =? retries)%Z then raise_last last_exc   (* break *)
           else
             secs ← float_mul_int backoff attempt;
             sleep secs;;
             download_loop url timeout retries backoff ctx rest last_exc)
  end.

Definition download (url : string) (timeout retries : Z) (backoff : float)
    (cafile : option string) (insecure : bool) : M bytes :=
  let last_exc := None in
  ctx ← build_context cafile insecure;
  download_loop url timeout retries backoff ctx (range_attempts retries)
                last_exc.

(** ** [main] (lines 60-123) *)

(** The classification in the handler (lines 80-95): the flag set by the
    [isinstance] test on [ssl.SSLError], then by the two substring tests on
    the text of a URLError's reason. *)
Definition is_ssl_err (e : exn) : bool :=
  let is_ssl_err := false in
  let is_ssl_err := if isinstance_SSLError e then true else is_ssl_err in
  if isinstance_URLError e && reason_truthy (getattr_reason e) then
    let reason_str := str_reason (getattr_reason e) in
    if str_in "CERTIFICATE_VERIFY_FAILED" reason_str
       || str_in "certificate verify failed" reason_str
    then true else is_ssl_err
  else is_ssl_err.

(** [import certifi] followed by [certifi.where()]. *)
Definition import_certifi : M string :=
  match w_certifi w with
  | Some path => mret path
  | None => raise (PyError ImportError "No module named 'certifi'")
  end.

(** [json.loads(raw.decode("utf-8"))].  The handler of line 112 treats
    every exception alike; one stands here for the three that [json.loads]
    raises. *)
Definition loads_utf8 (raw : bytes) : M PyJson.json :=
  match PyJson.utf8_decode raw with
  | None => raise (PyError UnicodeDecodeError "'utf-8' codec can't decode")
  | Some text =>
      match PyJson.json_loads (w_int_max_str_digits w) (w_max_nesting w)
                              text with
      | None => raise (PyError JSONDecodeError "invalid JSON document")
      | Some parsed => mret parsed
      end
  end.

(** The text [json.dump(parsed, f, indent=2, ensure_ascii=False)] writes. *)
Definition dump_text (parsed : PyJson.json) : pystr :=
  PyJson.json_dumps (w_float_repr w) parsed.

(** [with open(outpath, "w", encoding="utf-8") as f: json.dump(...)].
    Opening fails on a directory or when the system refuses; it truncates
    the file otherwise.  The text is then written in UTF-8 and the file
    closed: this is cut short by an error of the system or of the encoder,
    or by a lone surrogate, which UTF-8 cannot encode, and the file then
    holds what had been flushed. *)
Definition write_json (outpath : string) (parsed : PyJson.json) : M unit :=
  fun s =>
    match st_fs s !! outpath with
    | Some Dir => (Exc (PyError OSError "Is a directory"), s)
    | _ =>
        match w_open_refused w outpath with
        | Some e => (Exc e, s)
        | None =>
            let text := dump_text parsed in
            let cut_short :=
              {| st_fs := <[outpath := File (w_flushed w text)]> (st_fs s);
                 st_trace := st_trace s |} in
            match w_write_error w outpath text with
            | Some e => (Exc e, cut_short)
            | None =>
                match PyJson.utf8_encode text with
                | Some content =>
                    (Ret tt,
                     {| st_fs := <[outpath := File content]> (st_fs s);
                        st_trace := st_trace s |})
                | None =>
                    (Exc (PyError UnicodeEncodeError "surrogates not allowed"),
                     cut_short)
                end
            end
        end
    end.

End Program.

(** The parsed command line. *)
Record Args := {
  args_output : string;
  args_force : bool;
  args_retries : Z;
  args_insecure : bool;
  args_cafile : option string
}.

Definition URL : string :=
  "https://www.cisa.gov/sites/default/files/feeds/known_exploited_vulnerabilities.json".

(** The defaults of [download]'s keyword arguments. *)
Definition default_timeout : Z := 15.
Definition default_backoff : float := 1.5.

Section Main.

Variable w : World.

(** Lines 75-108: the first fetch and its handler. *)
Definition fetch (args : Args) : M bytes :=
  try_except
    (download w URL default_timeout (args_retries args) default_backoff
              (args_cafile args) (args_insecure args))
    (fun e =>
       if is_ssl_err e && negb (args_insecure args)
          && negb (cafile_truthy (args_cafile args))
       then
         try_except
           (bundle ← import_certifi w;
            print_stderr MsgRetryCertifi;;
            download w URL default_timeout (args_retries args)
                     default_backoff (Some bundle) false)
           (fun e2 =>
              print_stderr (MsgFallbackFailed e2);;
              print_stderr (MsgOriginalError e);;
              sys_exit 2)
       else
         print_stderr (MsgDownloadFailed URL e);;
         sys_exit 2).

Definition main (args : Args) : M unit :=
  let outpath := args_output args in
  ex ← path_exists outpath;
  (if ex && negb (args_force args) then
     print_stderr (MsgExists outpath);; sys_exit 1
   else mret tt);;
  raw ← fetch args;
  parsed ← try_except (loads_utf8 w raw)
             (fun e => print_stderr (MsgNotJSON e);; sys_exit 3);
  try_except (write_json w outpath parsed)
    (fun e => print_stderr (MsgWriteFailed outpath e);; sys_exit 4);;
  print_stdout (MsgSaved outpath).

End Main.

(** The status the process ends with: [sys.exit(n)] gives [n], falling off
    the end of [main] gives 0, an uncaught exception gives 1. *)
Definition exit_status {A} (r : outcome A) : Z :=
  match r with
  | Ret _ => 0
  | SysExit code => code
  | Exc _ => 1
  end.


(** ** Vocabulary of the statements *)

(** The state [s] with more events at the end of its trace. *)
Definition extend (s : state) (evs : list event) : state :=
  {| st_fs := st_fs s; st_trace := st_trace s ++ evs |}.

(** What one attempt gives for what [urlopen] did. *)
Definition attempt_result (o : opened) : outcome bytes :=
  match o with
  | OpenRaises e => Exc e
  | Opened resp =>
      if (default 200 (resp_status resp) =? 200)%Z then
        match resp_read resp with
        | inl body => Ret body
        | inr e => Exc e
        end
      else Exc (HTTPError (default 0 (resp_status resp))
                          (default "" (resp_reason resp)))
  end.

(** The exception that lines 31-37 raise, if any: the one of loading the
    CA bundle, which is loaded only without [insecure] and with a path that
    is not empty. *)
Definition context_error (w : World) (insecure : bool)
    (cafile : option string) : option exn :=
  if insecure then None
  else if cafile_truthy cafile then
    match cafile with
    | Some path => w_load_cafile w path
    | None => None
    end
  else None.

(** The delay after the failed attempt [k]: the float product
    [backoff * k]. *)
Definition delay (backoff : float) (k : Z) : float :=
  (backoff * float_of_int k)%float.

(** The exception that ends the pause after the failed attempt [k], if
    any: the one of the product or the one of [time.sleep]. *)
Definition pause_error (w : World) (backoff : float) (k : Z) : option exn :=
  if PrimFloat.is_infinity (float_of_int k) then
    Some (PyError OverflowError "int too large to convert to float")
  else sleep_error w (delay backoff k).

(** The pauses after the attempts 1 .. n are all slept. *)
Definition pauses_accepted (w : World) (backoff : float) (n : nat) : Prop :=
  forall k, (1 <= k <= n)%nat -> pause_error w backoff (Z.of_nat k) = None.

(** The events of the attempts numbered [ks] when each of them fails and
    is followed by its sleep. *)
Definition failed_attempts (url : string) (timeout : Z) (backoff : float)
    (ctx : option SSLContext) (ks : list Z) : list event :=
  flat_map (fun k => [EvUrlopen url timeout ctx; EvSleep (delay backoff k)])
           ks.

Definition attempts_from (k n : nat) : list Z := map Z.of_nat (seq k n).

Definition is_attempt (ev : event) : bool :=
  match ev with EvUrlopen _ _ _ => true | _ => false end.

(** The number of connection attempts in a trace. *)
Definition count_attempts (tr : list event) : nat :=
  length (filter (fun ev => is_attempt ev = true) tr).


(** The number a finite float stands for. *)
Definition Q_of_float (x : float) : Q :=
  match Prim2SF x with
  | S754_finite sign m e =>
      ((if sign then -1 else 1) * inject_Z (Z.pos m) * 2 ^ e)%Q
  | _ => 0%Q
  end.



(** The guard of line 71. *)
Definition destination_blocked (args : Args) (s : state) : bool :=
  bool_decide (is_Some (st_fs s !! args_output args)) && negb (args_force args).

(** The first call of [download] in [main], and the one in the handler. *)
Definition primary_download (w : World) (args : Args) : M bytes :=
  download w URL default_timeout (args_retries args) default_backoff
           (args_cafile args) (args_insecure args).

Definition fallback_download (w : World) (args : Args) (bundle : string)
  : M bytes :=
  download w URL default_timeout (args_retries args) default_backoff
           (Some bundle) false.

(** The condition of line 97. *)
Definition fallback_eligible (args : Args) (e : exn) : bool :=
  is_ssl_err e && negb (args_insecure args)
  && negb (cafile_truthy (args_cafile args)).

(** The download phase of a run from [s] delivers [raw] and leaves [s']:
    either the first fetch succeeds, or it fails in a way that makes the
    fallback eligible, certifi is installed, and the fallback succeeds. *)
Inductive downloaded (w : World) (args : Args) (s : state)
  : bytes -> state -> Prop :=
| downloaded_primary raw s1 :
    primary_download w args s = (Ret raw, s1) ->
    downloaded w args s raw s1
| downloaded_fallback e s1 bundle raw s2 :
    primary_download w args s = (Exc e, s1) ->
    fallback_eligible args e = true ->
    w_certifi w = Some bundle ->
    fallback_download w args bundle (log_event (EvStderr MsgRetryCertifi) s1)
      = (Ret raw, s2) ->
    downloaded w args s raw s2.

(** The download phase fails: the first fetch fails and there is no
    fallback, or the fallback is unavailable, or the fallback fails too. *)
Inductive download_failed (w : World) (args : Args) (s : state) : Prop :=
| failed_no_fallback e s1 :
    primary_download w args s = (Exc e, s1) ->
    fallback_eligible args e = false ->
    download_failed w args s
| failed_fallback_unavailable e s1 :
    primary_download w args s = (Exc e, s1) ->
    fallback_eligible args e = true ->
    w_certifi w = None ->
    download_failed w args s
| failed_fallback e s1 bundle e2 s2 :
    primary_download w args s = (Exc e, s1) ->
    fallback_eligible args e = true ->
    w_certifi w = Some bundle ->
    fallback_download w args bundle (log_event (EvStderr MsgRetryCertifi) s1)
      = (Exc e2, s2) ->
    download_failed w args s.

(** [raw] as UTF-8 JSON, when it is and the interpreter's limits allow
    for it. *)
Definition parse_bytes (w : World) (raw : bytes) : option PyJson.json :=
  text ← PyJson.utf8_decode raw;
  PyJson.json_loads (w_int_max_str_digits w) (w_max_nesting w) text.

Definition is_retry_notice (ev : event) : bool :=
  match ev with EvStderr MsgRetryCertifi => true | _ => false end.

(** How often a trace announces the certifi fallback. *)
Definition fallback_runs (tr : list event) : nat :=
  length (filter (fun ev => is_retry_notice ev = true) tr).

(** [needle] occurs in [hay], letter for letter. *)
Definition occurs_in (needle hay : string) : Prop :=
  exists before after : string, hay = (before ++ needle ++ after)%string.

Definition lower_ascii (c : ascii) : ascii :=
  let n := nat_of_ascii c in
  if ((65 <=? n) && (n <=? 90))%nat then ascii_of_nat (n + 32) else c.

(** [s.lower()] on ASCII letters. *)
Fixpoint str_lower (s : string) : string :=
  match s with
  | EmptyString => EmptyString
  | String c rest => String (lower_ascii c) (str_lower rest)
  end.

(** The classification rule as the design document words it: the textual
    description of the failure contains a verification-failure indicator,
    compared without regard to letter case. *)
Definition described_as_verification_failure (e : exn) : bool :=
  str_in "certificate verify failed" (str_lower (str_exn e))
  || str_in "certificate_verify_failed" (str_lower (str_exn e)).

(** The world [w] in which a response whose status is not 200 is replaced
    by the [HTTPError] that [urlopen] would raise for that status. *)
Definition status_as_error (o : opened) : opened :=
  match o with
  | Opened resp =>
      if (default 200 (resp_status resp) =? 200)%Z then o
      else OpenRaises (HTTPError (default 0 (resp_status resp))
                                 (default "" (resp_reason resp)))
  | OpenRaises _ => o
  end.

Definition raising_on_status (w : World) : World :=
  {| w_urlopen := fun history url timeout ctx =>
                    status_as_error (w_urlopen w history url timeout ctx);
     w_load_cafile := w_load_cafile w;
     w_certifi := w_certifi w;
     w_max_sleep := w_max_sleep w;
     w_int_max_str_digits := w_int_max_str_digits w;
     w_max_nesting := w_max_nesting w;
     w_open_refused := w_open_refused w;
     w_write_error := w_write_error w;
     w_float_repr := w_float_repr w;
     w_flushed := w_flushed w |}.

(** ** Scenarios

    Concrete environments and command lines on which the statements below
    are evaluated. *)

Definition no_files : state := {| st_fs := ∅; st_trace := [] |}.

(** The eight bytes of the JSON text that maps the key a to 1. *)
Definition body_a1 : bytes :=
  [Byte.x7b; Byte.x22; Byte.x61; Byte.x22; Byte.x3a; Byte.x20; Byte.x31;
   Byte.x7d].

Definition response_ok (body : bytes) : response :=
  {| resp_status := Some 200; resp_reason := Some "OK";
     resp_read := inl body |}.

(** The limits of a CPython 3.11 on Linux: the clock holds 2^63
    nanoseconds, [int()] converts 4300 digits, and below the frames of the
    script some 990 containers can be open before the recursion limit of
    1000 is reached. *)
Definition max_sleep_linux : float := 0x1.12e0be826d694p+33.
Definition max_str_digits_default : N := 4300.
Definition max_nesting_default : nat := 990.

(** A world in which every request meets [answer], certifi is installed
    when [certifi] is given, every CA bundle loads and files can always be
    written. *)
Definition world_of (answer : list event -> option SSLContext -> opened)
    (certifi : option string) : World :=
  {| w_urlopen := fun history _ _ ctx => answer history ctx;
     w_load_cafile := fun _ => None;
     w_certifi := certifi;
     w_max_sleep := max_sleep_linux;
     w_int_max_str_digits := max_str_digits_default;
     w_max_nesting := max_nesting_default;
     w_open_refused := fun _ => None;
     w_write_error := fun _ _ => None;
     w_float_repr := fun lexeme => lexeme;
     w_flushed := fun _ => [] |}.

(** The server is unreachable: every connection times out. *)
Definition world_down : World :=
  world_of (fun _ _ => OpenRaises (URLError (RObj "timed out"))) None.

(** The server answers 200 with [body_a1]. *)
Definition world_up : World :=
  world_of (fun _ _ => Opened (response_ok body_a1)) None.

Definition args_default : Args :=
  {| args_output := "known_exploited_vulnerabilities.json";
     args_force := false;
     args_retries := 3;
     args_insecure := false;
     args_cafile := None |}.

(** The server answers 204 No Content with an empty body. *)
Definition response_204 : response :=
  {| resp_status := Some 204; resp_reason := Some "No Content";
     resp_read := inl [] |}.

Definition world_204 : World :=
  world_of (fun _ _ => Opened response_204) None.

(** The destination is already there. *)
Definition with_destination : state :=
  {| st_fs := {[ args_output args_default := File body_a1 ]};
     st_trace := [] |}.

(** A reason text in another letter case than the two the script knows. *)
Definition mixed_case_failure : exn :=
  URLError (RStr "Certificate Verify Failed").

(** A TLS failure while the body is read, unrelated to certificates. *)
Definition record_mac_failure : exn :=
  SSLError "[SSL: DECRYPTION_FAILED_OR_BAD_RECORD_MAC] decryption failed or bad record mac (_ssl.c:2633)".

(** The platform's trust store rejects the server's certificate; a
    context with its own roots accepts it.  certifi is installed. *)
Definition verification_failure : exn :=
  URLError (RObj "[SSL: CERTIFICATE_VERIFY_FAILED] certificate verify failed: unable to get local issuer certificate (_ssl.c:1007)").

Definition world_mistrusted : World :=
  world_of (fun _ ctx => match ctx with
                         | None => OpenRaises verification_failure
                         | Some _ => Opened (response_ok body_a1)
                         end)
           (Some "/site-packages/certifi/cacert.pem").

(** The command line [--cafile ''] (the flag with an empty value). *)
Definition args_empty_cafile : Args :=
  {| args_output := "known_exploited_vulnerabilities.json";
     args_force := false;
     args_retries := 3;
     args_insecure := false;
     args_cafile := Some "" |}.

(** [body_a1] with two-space indentation: an opening brace, a line with
    the key and the value, a closing brace; twelve bytes. *)
Definition pretty_a1 : bytes :=
  [Byte.x7b; Byte.x0a; Byte.x20; Byte.x20; Byte.x22; Byte.x61; Byte.x22;
   Byte.x3a; Byte.x20; Byte.x31; Byte.x0a; Byte.x7d].

(** The server answers 404: [urlopen] raises the HTTPError itself. *)
Definition world_404 : World :=
  world_of (fun _ _ => OpenRaises (HTTPError 404 "Not Found")) None.

(** The server answers 200 with a body that is not JSON (the byte 0x3c). *)
Definition world_html : World :=
  world_of (fun _ _ => Opened (response_ok [Byte.x3c])) None.

(** The server answers well and the file cannot be opened for writing. *)
Definition world_readonly : World :=
  {| w_urlopen := fun _ _ _ _ => Opened (response_ok body_a1);
     w_load_cafile := fun _ => None;
     w_certifi := None;
     w_max_sleep := max_sleep_linux;
     w_int_max_str_digits := max_str_digits_default;
     w_max_nesting := max_nesting_default;
     w_open_refused := fun _ => Some (PyError OSError "Permission denied");
     w_write_error := fun _ _ => None;
     w_float_repr := fun lexeme => lexeme;
     w_flushed := fun _ => [] |}.

(** The CA bundle named on the command line does not exist; the server
    would answer well. *)
Definition missing_bundle : exn :=
  PyError FileNotFoundError "[Errno 2] No such file or directory".

Definition world_no_bundle : World :=
  {| w_urlopen := fun _ _ _ _ => Opened (response_ok body_a1);
     w_load_cafile := fun _ => Some missing_bundle;
     w_certifi := None;
     w_max_sleep := max_sleep_linux;
     w_int_max_str_digits := max_str_digits_default;
     w_max_nesting := max_nesting_default;
     w_open_refused := fun _ => None;
     w_write_error := fun _ _ => None;
     w_float_repr := fun lexeme => lexeme;
     w_flushed := fun _ => [] |}.

(** The command line [--retries 0 --cafile /nonexistent/ca.pem]. *)
Definition args_no_bundle : Args :=
  {| args_output := "known_exploited_vulnerabilities.json";
     args_force := false;
     args_retries := 0;
     args_insecure := false;
     args_cafile := Some "/nonexistent/ca.pem" |}.

(** The server answers well and the disk is full: the file is opened, and
    writing it fails before anything reaches the disk. *)
Definition world_disk_full : World :=
  {| w_urlopen := fun _ _ _ _ => Opened (response_ok body_a1);
     w_load_cafile := fun _ => None;
     w_certifi := None;
     w_max_sleep := max_sleep_linux;
     w_int_max_str_digits := max_str_digits_default;
     w_max_nesting := max_nesting_default;
     w_open_refused := fun _ => None;
     w_write_error :=
       fun _ _ => Some (PyError OSError "[Errno 28] No space left on device");
     w_float_repr := fun lexeme => lexeme;
     w_flushed := fun _ => [] |}.

(** The command line [--force]. *)
Definition args_forced : Args :=
  {| args_output := "known_exploited_vulnerabilities.json";
     args_force := true;
     args_retries := 3;
     args_insecure := false;
     args_cafile := None |}.

(** The server answers with one integer of 641 digits, all of them 1, and
    [int()] converts 640 digits, the least limit that can be set. *)
Definition world_long_integer : World :=
  {| w_urlopen :=
       fun _ _ _ _ => Opened (response_ok (repeat Byte.x31 641));
     w_load_cafile := fun _ => None;
     w_certifi := None;
     w_max_sleep := max_sleep_linux;
     w_int_max_str_digits := 640;
     w_max_nesting := max_nesting_default;
     w_open_refused := fun _ => None;
     w_write_error := fun _ _ => None;
     w_float_repr := fun lexeme => lexeme;
     w_flushed := fun _ => [] |}.

(** The server answers with four nested empty lists, four opening and
    four closing brackets, and the recursion limit is reached at the
    fourth. *)
Definition world_deep_nesting : World :=
  {| w_urlopen :=
       fun _ _ _ _ =>
         Opened (response_ok (repeat Byte.x5b 4 ++ repeat Byte.x5d 4));
     w_load_cafile := fun _ => None;
     w_certifi := None;
     w_max_sleep := max_sleep_linux;
     w_int_max_str_digits := max_str_digits_default;
     w_max_nesting := 3;
     w_open_refused := fun _ => None;
     w_write_error := fun _ _ => None;
     w_float_repr := fun lexeme => lexeme;
     w_flushed := fun _ => [] |}.

(** The command line [--cafile /nonexistent/ca.pem]. *)
Definition args_missing_cafile : Args :=
  {| args_output := "known_exploited_vulnerabilities.json";
     args_force := false;
     args_retries := 3;
     args_insecure := false;
     args_cafile := Some "/nonexistent/ca.pem" |}.

(** The server fails the first two connections and answers the third. *)
Definition world_flaky : World :=
  world_of (fun history _ =>
              if (count_attempts history <? 2)%nat
              then OpenRaises (URLError (RObj "timed out"))
              else Opened (response_ok body_a1))
           None.

(** A context that verifies the server: the default trust (no context),
    or a context with certificate validation and hostname checking on. *)
Definition verifies (c : option SSLContext) : Prop :=
  match c with
  | None => True
  | Some ctx => verify_mode ctx = CERT_REQUIRED /\ check_hostname ctx = true
  end.

(** What a run of [main] may do while it fetches: requests to [URL] with
    the default timeout, made with the context of the command line or, once
    the fallback is due, with the one of the certifi bundle; sleeps; and
    the line that announces the fallback. *)
Definition during_fetch (w : World) (args : Args) (ev : event) : Prop :=
  match ev with
  | EvUrlopen u t c =>
      u = URL /\ t = default_timeout /\
      (c = make_ctx (args_insecure args) (args_cafile args) \/
       (args_insecure args = false /\
        cafile_truthy (args_cafile args) = false /\
        exists bundle, w_certifi w = Some bundle /\
                       c = make_ctx false (Some bundle)))
  | EvSleep _ => True
  | EvStderr MsgRetryCertifi =>
      args_insecure args = false /\
      cafile_truthy (args_cafile args) = false /\
      is_Some (w_certifi w)
  | _ => False
  end.

(** The lines that end a run: the saved line on standard output after a
    success; before [sys.exit] with a status other than 0, one diagnostic
    on standard error, or the two of a failed fallback. *)
Definition reports (out : string) (r : outcome unit) (tail : list event)
  : Prop :=
  match r with
  | Ret _ => tail = [EvStdout (MsgSaved out)]
  | SysExit code =>
      code <> 0 /\
      ((exists m, tail = [EvStderr m] /\ m <> MsgRetryCertifi) \/
       (exists e2 e, tail = [EvStderr (MsgFallbackFailed e2);
                             EvStderr (MsgOriginalError e)]))
  | Exc _ => False
  end.

(** The most attempts a run can make: one fetch, and a second one only
    when neither --insecure nor a CA file was given. *)
Definition attempts_allowed (args : Args) : nat :=
  ((if args_insecure args || cafile_truthy (args_cafile args) then 1 else 2)
   * Z.to_nat (args_retries args))%nat.


(** The platform's trust store rejects the server's certificate and
    certifi is not installed. *)
Definition world_unverified : World :=
  world_of (fun _ _ => OpenRaises verification_failure) None.

(** ** Reading a written document back

    Vocabulary for the way of a document through [json.dump] and back
    through [json.loads]. *)

Section ReadBack.

Import PyJson.

(** No number of the document was read from a lexeme with a fraction or an
    exponent.  Such a number is a Python float, and what [json.dump] writes
    for it is its [repr], which need not be the lexeme that was read. *)
Fixpoint no_float_literal (v : json) : bool :=
  match v with
  | JFloat (FLit _) => false
  | JList items => forallb no_float_literal items
  | JDict pairs => forallb (fun kv => no_float_literal (snd kv)) pairs
  | _ => true
  end.

(** What [json.loads] can have built within its limits: no integer of the
    value has more than [max_digits] digits, its containers nest at most
    [n] deep, and no object holds a key twice, as in every dict. *)
Fixpoint loadable (max_digits : N) (n : nat) (v : json) {struct v}
  : Prop :=
  match v with
  | JInt z => int_within max_digits z = true
  | JList items =>
      match n with
      | O => False
      | S n' =>
          foldr (fun x rest => loadable max_digits n' x /\ rest) True items
      end
  | JDict pairs =>
      match n with
      | O => False
      | S n' =>
          NoDup (map fst pairs) /\
          foldr (fun kv rest => loadable max_digits n' (snd kv) /\ rest)
                True pairs
      end
  | _ => True
  end.

(** The tokens of the text that [json.dumps] writes for a value. *)
Fixpoint tokens (v : json) : list token :=
  match v with
  | JStr s => [TStr s]
  | JList [] => [TLBracket; TRBracket]
  | JList (x :: xs) =>
      [TLBracket] ++ tokens x
      ++ flat_map (fun y => TComma :: tokens y) xs ++ [TRBracket]
  | JDict [] => [TLBrace; TRBrace]
  | JDict (kv :: pairs) =>
      [TLBrace; TStr (fst kv); TColon] ++ tokens (snd kv)
      ++ flat_map (fun kv => TComma :: TStr (fst kv) :: TColon
                             :: tokens (snd kv)) pairs
      ++ [TRBrace]
  | _ => [TScalar v]
  end.

(** Induction over a document, with the hypothesis for every item of a
    list and every value of an object. *)
Section JsonInd.

Variable P : json -> Prop.
Hypothesis Hnull : P JNull.
Hypothesis Hbool : forall b, P (JBool b).
Hypothesis Hint : forall z, P (JInt z).
Hypothesis Hfloat : forall f, P (JFloat f).
Hypothesis Hstr : forall s, P (JStr s).
Hypothesis Hlist : forall items, Forall P items -> P (JList items).
Hypothesis Hdict :
  forall pairs, Forall (fun kv => P (snd kv)) pairs -> P (JDict pairs).

Fixpoint json_induction (v : json) : P v :=
  match v with
  | JNull => Hnull
  | JBool b => Hbool b
  | JInt z => Hint z
  | JFloat f => Hfloat f
  | JStr s => Hstr s
  | JList items =>
      Hlist items
        ((fix go (l : list json) : Forall P l :=
            match l with
            | [] => @List.Forall_nil _ P
            | x :: l' => @List.Forall_cons _ P x l' (json_induction x) (go l')
            end) items)
  | JDict pairs =>
      Hdict pairs
        ((fix go (l : list (pystr * json)) : Forall (fun kv => P (snd kv)) l :=
            match l with
            | [] => @List.Forall_nil _ _
            | kv :: l' =>
                @List.Forall_cons _ (fun kv => P (snd kv)) kv l'
                  (json_induction (snd kv)) (go l')
            end) pairs)
  end.

End JsonInd.

(** What may follow a value in the text [json.dumps] writes: the end of
    the text, a line break or a comma. *)
Definition ends_value (tail : pystr) : Prop :=
  match tail with
  | [] => True
  | c :: _ => c = 10%N \/ c = 44%N
  end.

(** The number the scanner holds after the digits [d], having held [m]
    before them. *)
Fixpoint read_uint (d : Decimal.uint) (m : Z) : Z :=
  match d with
  | Decimal.Nil => m
  | Decimal.D0 l => read_uint l (10 * m + 0)
  | Decimal.D1 l => read_uint l (10 * m + 1)
  | Decimal.D2 l => read_uint l (10 * m + 2)
  | Decimal.D3 l => read_uint l (10 * m + 3)
  | Decimal.D4 l => read_uint l (10 * m + 4)
  | Decimal.D5 l => read_uint l (10 * m + 5)
  | Decimal.D6 l => read_uint l (10 * m + 6)
  | Decimal.D7 l => read_uint l (10 * m + 7)
  | Decimal.D8 l => read_uint l (10 * m + 8)
  | Decimal.D9 l => read_uint l (10 * m + 9)
  end.

Definition digits (d : Decimal.uint) : pystr :=
  cps (NilEmpty.string_of_uint d).

(** What the scanner maintains: a scalar token holds a scalar. *)
Definition plain_token (t : token) : Prop :=
  match t with
  | TScalar (JList _ | JDict _) => False
  | _ => True
  end.

Definition lex_wf (st : lex_state) : Prop :=
  match st with LLit _ tok => plain_token tok | _ => True end.

(** What the parser maintains: the values it holds are within the limits,
    each at the depth where it sits. *)
Definition scalar_token (max_digits : N) (t : token) : Prop :=
  match t with
  | TScalar v => forall n, loadable max_digits n v
  | _ => True
  end.

Definition wf_frame (max_digits : N) (n : nat) (f : frame) : Prop :=
  match f with
  | FList items_rev => Forall (loadable max_digits n) items_rev
  | FDict d _ =>
      NoDup (map fst d) /\ Forall (fun kv => loadable max_digits n (snd kv)) d
  end.

Fixpoint stack_ok (max_digits : N) (max_nesting : nat) (stk : list frame)
  : Prop :=
  match stk with
  | [] => True
  | f :: below =>
      (length below < max_nesting)%nat /\
      wf_frame max_digits (max_nesting - S (length below)) f /\
      stack_ok max_digits max_nesting below
  end.

Definition wf_state (max_digits : N) (max_nesting : nat) (st : parse_state)
  : Prop :=
  match st with
  | PValue stk => stack_ok max_digits max_nesting stk
  | PListFirst stk => stack_ok max_digits max_nesting (FList [] :: stk)
  | PListNext items_rev stk =>
      stack_ok max_digits max_nesting (FList items_rev :: stk)
  | PDictFirst stk => stack_ok max_digits max_nesting (FDict [] [] :: stk)
  | PDictKey d stk | PDictNext d stk =>
      stack_ok max_digits max_nesting (FDict d [] :: stk)
  | PColon d _ stk => stack_ok max_digits max_nesting (FDict d [] :: stk)
  | PDone v => loadable max_digits max_nesting v
  end.

End ReadBack.

(** The server answers 200 with the JSON string whose only character is
    written as the escape of the lone surrogate U+D800: the eight bytes of
    the quote, backslash, u, d, 8, 0, 0 and the quote. *)
Definition body_surrogate : bytes :=
  [Byte.x22; Byte.x5c; Byte.x75; Byte.x64; Byte.x38; Byte.x30; Byte.x30;
   Byte.x22].

Definition world_surrogate : World :=
  world_of (fun _ _ => Opened (response_ok body_surrogate)) None.

(** * Properties *)

Create HintDb py_monad.
#[global] Hint Unfold mbind mret M_bind M_ret bind ret raise sys_exit
  try_except emit print_stderr print_stdout : py_monad.

Ltac run_monad := autounfold with py_monad in *; simpl in *.

Lemma extend_nil s : extend s [] = s.
Proof. destruct s; unfold extend; simpl. by rewrite app_nil_r. Qed.

Lemma extend_extend s evs1 evs2 :
  extend (extend s evs1) evs2 = extend s (evs1 ++ evs2).
Proof. unfold extend; simpl. by rewrite <- app_assoc. Qed.

Lemma log_event_extend ev s : log_event ev s = extend s [ev].
Proof. reflexivity. Qed.

(** ** One attempt *)

Section DownloadFacts.

Variable w : World.
Variables (url : string) (timeout retries : Z) (backoff : float).
Variable ctx : option SSLContext.

Local Abbreviation failed_attempts :=
  (failed_attempts url timeout backoff ctx).

Lemma attempt_once_run s :
  attempt_once w url timeout ctx s =
  (attempt_result (w_urlopen w (st_trace s) url timeout ctx),
   log_event (EvUrlopen url timeout ctx) s).
Proof.
  unfold attempt_once, urlopen, with_resp, attempt_result.
  destruct ctx; run_monad;
    (destruct (w_urlopen w (st_trace s) url timeout _) as [resp|e];
     [|reflexivity];
     destruct (default 200 (resp_status resp) =? 200)%Z; simpl;
     [destruct (resp_read resp)|]; reflexivity).
Qed.

Lemma attempt_once_no_exit s code :
  (attempt_once w url timeout ctx s).1 ≠ SysExit code.
Proof.
  rewrite attempt_once_run; simpl. unfold attempt_result.
  destruct (w_urlopen _ _ _ _ _) as [resp|e]; [|done].
  destruct (_ =? _)%Z; [destruct (resp_read resp)|]; done.
Qed.

(** ** The retry loop *)

(** The product and the sleep of the handler. *)
Lemma pause_run {A} attempt (k : M A) s :
  (secs ← float_mul_int backoff attempt; sleep w secs;; k) s
  = match pause_error w backoff attempt with
    | Some e => (Exc e, s)
    | None => k (log_event (EvSleep (delay backoff attempt)) s)
    end.
Proof.
  unfold pause_error, float_mul_int, sleep, delay.
  autounfold with py_monad.
  destruct (PrimFloat.is_infinity (float_of_int attempt)); [reflexivity|].
  destruct (sleep_error w _); reflexivity.
Qed.

(** One iteration of the loop. *)
Lemma download_loop_cons attempt rest last_exc s :
  download_loop w url timeout retries backoff ctx (attempt :: rest) last_exc s
  = match attempt_once w url timeout ctx s with
    | (Exc e, s1) =>
        if (attempt =? retries)%Z then (Exc e, s1)
        else
          match pause_error w backoff attempt with
          | Some e' => (Exc e', s1)
          | None =>
              download_loop w url timeout retries backoff ctx rest (Some e)
                (log_event (EvSleep (delay backoff attempt)) s1)
          end
    | r => r
    end.
Proof.
  cbn [download_loop]. unfold try_except.
  destruct (attempt_once w url timeout ctx s) as [[body|e|c] s1]; try done.
  destruct (attempt =? retries)%Z; [reflexivity|]. apply pause_run.
Qed.

Lemma attempts_from_S k n :
  attempts_from k (S n) = Z.of_nat k :: attempts_from (S k) n.
Proof. reflexivity. Qed.

Lemma failed_attempts_cons k ks :
  failed_attempts (k :: ks)
  = [EvUrlopen url timeout ctx; EvSleep (delay backoff k)]
    ++ failed_attempts ks.
Proof. reflexivity. Qed.

(** The loop over the attempts [k .. k+n], where [k+n] is the retry
    count: some [m <= n] attempts fail and are slept after, and attempt
    [k+m] is the last one made.  The loop ends with what that attempt
    gives, in an exception only if it is the last one allowed; or that
    attempt fails and the pause after it raises. *)
Lemma download_loop_run n : forall k last_exc s,
  retries = Z.of_nat (k + n) ->
  exists m, (m <= n)%nat /\
    let before j := extend s (failed_attempts (attempts_from k j)) in
    let run := download_loop w url timeout retries backoff ctx
                 (attempts_from k (S n)) last_exc s in
    let last := attempt_once w url timeout ctx (before m) in
    run.2 = last.2 /\
    (forall j, (j < m)%nat ->
       (exists e, (attempt_once w url timeout ctx (before j)).1 = Exc e) /\
       pause_error w backoff (Z.of_nat (k + j)) = None) /\
    ((run.1 = last.1 /\ forall e, last.1 = Exc e -> m = n) \/
     ((m < n)%nat /\ (exists e, last.1 = Exc e) /\
      exists e', pause_error w backoff (Z.of_nat (k + m)) = Some e' /\
                 run.1 = Exc e')).
Proof.
  induction n as [|n IH]; intros k last_exc s Hret; cbn zeta;
    rewrite attempts_from_S, download_loop_cons.
  - exists 0%nat. split; [lia|].
    change (attempts_from k 0) with (@nil Z).
    change (failed_attempts []) with (@nil event). rewrite extend_nil.
    replace (Z.of_nat k =? retries)%Z with true
      by (symmetry; apply Z.eqb_eq; lia).
    split; [|split; [intros j Hj; lia|left; split; [|done]]];
      by destruct (attempt_once w url timeout ctx s) as [[body|e|c] s1].
  - assert (Hnil : extend s (failed_attempts (attempts_from k 0)) = s).
    { change (attempts_from k 0) with (@nil Z).
      change (failed_attempts []) with (@nil event). apply extend_nil. }
    replace (Z.of_nat k =? retries)%Z with false
      by (symmetry; apply Z.eqb_neq; lia).
    destruct (attempt_once w url timeout ctx s) as [[body|e|c] s1] eqn:E.
    + exists 0%nat. split; [lia|]. rewrite Hnil, E.
      split; [done|]. split; [intros j Hj; lia|]. left. by split.
    + destruct (pause_error w backoff (Z.of_nat k)) as [e'|] eqn:Hpause.
      * exists 0%nat. split; [lia|]. rewrite Hnil, E.
        split; [done|]. split; [intros j Hj; lia|]. right.
        split; [lia|]. split; [by exists e|]. exists e'.
        by rewrite Nat.add_0_r.
      * pose proof (attempt_once_run s) as Hrun. rewrite E in Hrun.
        injection Hrun as Hres Hs1. subst s1.
        rewrite !log_event_extend, extend_extend.
        assert (Hshift : forall j,
          extend (extend s ([EvUrlopen url timeout ctx] ++
                            [EvSleep (delay backoff (Z.of_nat k))]))
                 (failed_attempts (attempts_from (S k) j))
          = extend s (failed_attempts (attempts_from k (S j)))).
        { intros j.
          rewrite extend_extend, attempts_from_S, failed_attempts_cons.
          reflexivity. }
        destruct (IH (S k) (Some e)
                    (extend s ([EvUrlopen url timeout ctx] ++
                               [EvSleep (delay backoff (Z.of_nat k))])))
          as (m & Hm & Hstate & Hbefore & Hend); [lia|].
        cbn zeta in Hstate, Hbefore, Hend.
        rewrite Hshift in Hstate, Hend.
        exists (S m). split; [lia|]. split; [exact Hstate|]. split.
        -- intros [|j] Hj.
           ++ rewrite Hnil, E, Nat.add_0_r. split; [by exists e | done].
           ++ rewrite <- Hshift.
              replace (k + S j)%nat with (S k + j)%nat by lia.
              apply Hbefore. lia.
        -- destruct Hend as [[Hres' Hlast] | (Hlt & Hfail & e' & Hpause' & Hres')].
           ++ left. split; [exact Hres'|]. intros e0 He0. f_equal. eauto.
           ++ right. split; [lia|]. split; [exact Hfail|]. exists e'.
              replace (k + S m)%nat with (S k + m)%nat by lia. by split.
    + exfalso. eapply (attempt_once_no_exit s c). by rewrite E.
Qed.

End DownloadFacts.

(** ** Traces *)

Lemma count_attempts_app tr1 tr2 :
  count_attempts (tr1 ++ tr2) = (count_attempts tr1 + count_attempts tr2)%nat.
Proof. unfold count_attempts. by rewrite filter_app, length_app. Qed.

Lemma count_failed_attempts url timeout backoff ctx ks :
  count_attempts (failed_attempts url timeout backoff ctx ks) = length ks.
Proof.
  induction ks as [|k ks IH]; [reflexivity|].
  change (failed_attempts url timeout backoff ctx (k :: ks))
    with ([EvUrlopen url timeout ctx; EvSleep (delay backoff k)]
          ++ failed_attempts url timeout backoff ctx ks).
  rewrite count_attempts_app, IH. reflexivity.
Qed.





Lemma range_attempts_from retries :
  range_attempts retries = attempts_from 1 (Z.to_nat retries).
Proof. reflexivity. Qed.

Lemma attempts_from_length k n : length (attempts_from k n) = n.
Proof. unfold attempts_from. by rewrite length_map, length_seq. Qed.


(** ** [download] as a whole *)

Section DownloadRun.

Variable w : World.
Variables (url : string) (timeout retries : Z) (backoff : float).
Variables (cafile : option string) (insecure : bool).

Local Abbreviation ctx := (make_ctx insecure cafile).
Local Abbreviation failed := (failed_attempts url timeout backoff ctx).

(** Lines 31-37 raise what loading the bundle raises, and leave the
    context of [make_ctx] otherwise. *)
Lemma build_context_run s :
  build_context w cafile insecure s
  = match context_error w insecure cafile with
    | Some e => (Exc e, s)
    | None => (Ret ctx, s)
    end.
Proof.
  unfold build_context, context_error, make_ctx, load_default_context.
  destruct insecure; [reflexivity|].
  destruct cafile as [path|]; cbn [cafile_truthy]; [|reflexivity].
  destruct (negb (String.eqb path "")); [|reflexivity].
  autounfold with py_monad. by destruct (w_load_cafile w path).
Qed.

Lemma download_unfold s :
  download w url timeout retries backoff cafile insecure s
  = match context_error w insecure cafile with
    | Some e => (Exc e, s)
    | None =>
        download_loop w url timeout retries backoff ctx
                      (range_attempts retries) None s
    end.
Proof.
  unfold download. change (mbind ?k ?m) with (bind m k). unfold bind.
  rewrite build_context_run. by destruct (context_error w insecure cafile).
Qed.

(** When the context cannot be built, no request is made. *)
Lemma download_no_context s e :
  context_error w insecure cafile = Some e ->
  download w url timeout retries backoff cafile insecure s = (Exc e, s).
Proof. intros H. by rewrite download_unfold, H. Qed.

(** Without a positive retry count the loop body never runs. *)
Lemma download_no_attempt s :
  context_error w insecure cafile = None -> retries <= 0 ->
  download w url timeout retries backoff cafile insecure s
  = (Exc (PyError TypeError "exceptions must derive from BaseException"), s).
Proof.
  intros H Hneg. rewrite download_unfold, H. unfold range_attempts.
  replace (Z.to_nat retries) with 0%nat by lia. reflexivity.
Qed.

(** With a context and a positive retry count, [download] makes [m+1]
    attempts for some [m < retries]: [m] failures, each slept after, and a
    last attempt.  The call ends with what that attempt gives, in an
    exception only if it is the last one allowed; or that attempt fails and
    the pause after it raises. *)
Lemma download_run_pauses s :
  1 <= retries ->
  context_error w insecure cafile = None ->
  exists m, (m < Z.to_nat retries)%nat /\
    let before j := extend s (failed (attempts_from 1 j)) in
    let run := download w url timeout retries backoff cafile insecure s in
    let last := attempt_once w url timeout ctx (before m) in
    run.2 = last.2 /\
    (forall j, (j < m)%nat ->
       (exists e, (attempt_once w url timeout ctx (before j)).1 = Exc e) /\
       pause_error w backoff (Z.of_nat (S j)) = None) /\
    ((run.1 = last.1 /\ forall e, last.1 = Exc e -> S m = Z.to_nat retries) \/
     ((S m < Z.to_nat retries)%nat /\ (exists e, last.1 = Exc e) /\
      exists e', pause_error w backoff (Z.of_nat (S m)) = Some e' /\
                 run.1 = Exc e')).
Proof.
  intros Hpos Hctx. rewrite download_unfold, Hctx, range_attempts_from.
  destruct (Z.to_nat retries) as [|n] eqn:En; [lia|].
  destruct (download_loop_run w url timeout retries backoff ctx n 1 None s)
    as (m & Hm & Hstate & Hbefore & Hend); [lia|].
  exists m. split; [lia|]. cbn zeta in *. split; [exact Hstate|].
  split; [exact Hbefore|].
  destruct Hend as [[Hres Hlast] | (Hlt & Hfail & e' & Hpause & Hres)].
  - left. split; [exact Hres|]. intros e He. f_equal. eauto.
  - right. split; [lia|]. split; [exact Hfail|]. by exists e'.
Qed.

(** When moreover every pause is slept, the call ends with what the last
    attempt gives. *)
Lemma download_run s :
  1 <= retries ->
  context_error w insecure cafile = None ->
  pauses_accepted w backoff (Z.to_nat retries - 1) ->
  exists m, (m < Z.to_nat retries)%nat /\
    download w url timeout retries backoff cafile insecure s
    = attempt_once w url timeout ctx (extend s (failed (attempts_from 1 m))) /\
    (forall e, (attempt_once w url timeout ctx
                  (extend s (failed (attempts_from 1 m)))).1 = Exc e ->
               S m = Z.to_nat retries) /\
    (forall j, (j < m)%nat -> exists e,
       (attempt_once w url timeout ctx
          (extend s (failed (attempts_from 1 j)))).1 = Exc e).
Proof.
  intros Hpos Hctx Hpauses.
  destruct (download_run_pauses s Hpos Hctx)
    as (m & Hm & Hstate & Hbefore & Hend).
  cbn zeta in *. exists m. split; [exact Hm|].
  destruct Hend as [[Hres Hlast] | (Hlt & _ & e' & Hpause & _)].
  - split; [|split; [exact Hlast | intros j Hj; by apply Hbefore]].
    destruct (download _ _ _ _ _ _ _ _), (attempt_once _ _ _ _ _).
    cbn [fst snd] in *. congruence.
  - rewrite Hpauses in Hpause by lia. discriminate.
Qed.


(** The events of a call: none when the context cannot be built or the
    retry count is not positive; otherwise the attempts that failed and
    were slept after, and a last attempt. *)
Lemma download_added s :
  let s' := (download w url timeout retries backoff cafile insecure s).2 in
  s' = s \/
  (1 <= retries /\ context_error w insecure cafile = None /\
   exists m, (m < Z.to_nat retries)%nat /\
     s' = extend s (failed (attempts_from 1 m) ++ [EvUrlopen url timeout ctx])).
Proof.
  cbn zeta.
  destruct (context_error w insecure cafile) as [e|] eqn:Hctx;
    [left; by rewrite (download_no_context s e)|].
  destruct (Z_le_gt_dec 1 retries) as [Hpos|Hneg];
    [|left; rewrite download_no_attempt by (done || lia); done].
  right. split; [done|]. split; [done|].
  destruct (download_run_pauses s Hpos Hctx) as (m & Hm & Hstate & _).
  cbn zeta in Hstate. exists m. split; [done|].
  by rewrite Hstate, attempt_once_run, log_event_extend, extend_extend.
Qed.

(** [download] never ends in [SystemExit]. *)
Lemma download_no_exit s code :
  (download w url timeout retries backoff cafile insecure s).1 ≠ SysExit code.
Proof.
  destruct (context_error w insecure cafile) as [e|] eqn:Hctx;
    [by rewrite (download_no_context s e)|].
  destruct (Z_le_gt_dec 1 retries) as [Hpos|Hneg];
    [|rewrite download_no_attempt by (done || lia); done].
  destruct (download_run_pauses s Hpos Hctx) as (m & _ & _ & _ & Hend).
  cbn zeta in Hend.
  destruct Hend as [[-> _] | (_ & _ & e' & _ & ->)];
    [apply attempt_once_no_exit | done].
Qed.

(** It only opens connections, all with its own context, and sleeps. *)
Lemma download_trace s :
  exists added,
    (download w url timeout retries backoff cafile insecure s).2
    = extend s added /\
    Forall (fun ev => match ev with
                      | EvUrlopen u t c => u = url /\ t = timeout /\ c = ctx
                      | EvSleep _ => True
                      | _ => False
                      end) added.
Proof.
  destruct (download_added s) as [-> | (_ & _ & m & _ & ->)].
  - exists []. by rewrite extend_nil.
  - eexists; split; [reflexivity|].
    apply Forall_app; split; [|by repeat constructor].
    generalize (attempts_from 1 m). intros ks.
    induction ks as [|k ks IH]; [constructor|].
    simpl. by repeat constructor.
Qed.

End DownloadRun.

(** ** Retries and back-off *)






(** With the limits of [world_of], the first two delays of the default
    back-off are slept. *)
Lemma world_of_pauses answer certifi :
  pauses_accepted (world_of answer certifi) default_backoff 2.
Proof. intros [|[|[|k]]] Hk; try lia; reflexivity. Qed.



(** The delay is the rounded product: a tenth of a second times three is
    a little more than three tenths. *)
Example delay_is_rounded :
  delay 0x1.999999999999ap-4 3 = 0x1.3333333333334p-2%float /\
  (Q_of_float (delay 0x1.999999999999ap-4 3)
   == 3 * Q_of_float 0x1.999999999999ap-4 + (1 # 36028797018963968))%Q.
Proof. split; [reflexivity | vm_compute; reflexivity]. Qed.

(** ** [main], phase by phase *)

Section MainFacts.

Variable w : World.

Lemma loads_utf8_run raw s :
  match parse_bytes w raw with
  | Some parsed => loads_utf8 w raw s = (Ret parsed, s)
  | None => exists e, loads_utf8 w raw s = (Exc e, s)
  end.
Proof.
  unfold parse_bytes, loads_utf8.
  destruct (PyJson.utf8_decode raw) as [text|]; simpl; [|by eexists].
  destruct (PyJson.json_loads _ _ text); [done | by eexists].
Qed.

Lemma fetch_run args s :
  fetch w args s =
  match primary_download w args s with
  | (Exc e, s1) =>
      if fallback_eligible args e then
        match w_certifi w with
        | Some bundle =>
            match fallback_download w args bundle
                    (log_event (EvStderr MsgRetryCertifi) s1) with
            | (Exc e2, s2) =>
                (SysExit 2,
                 log_event (EvStderr (MsgOriginalError e))
                   (log_event (EvStderr (MsgFallbackFailed e2)) s2))
            | r => r
            end
        | None =>
            (SysExit 2,
             log_event (EvStderr (MsgOriginalError e))
               (log_event
                  (EvStderr (MsgFallbackFailed
                     (PyError ImportError "No module named 'certifi'"))) s1))
        end
      else (SysExit 2, log_event (EvStderr (MsgDownloadFailed URL e)) s1)
  | r => r
  end.
Proof.
  unfold fetch, try_except at 1.
  fold (primary_download w args) (fallback_eligible).
  destruct (primary_download w args s) as [[raw|e|c] s1]; try reflexivity.
  fold (fallback_eligible args e).
  destruct (fallback_eligible args e); [|reflexivity].
  unfold import_certifi.
  destruct (w_certifi w) as [bundle|]; [|reflexivity].
  unfold try_except. autounfold with py_monad.
  fold (fallback_download w args bundle).
  destruct (fallback_download w args bundle _) as [[raw|e2|c] s2];
    reflexivity.
Qed.

(** [fetch] ends with the bytes or with [sys.exit(2)]. *)
Lemma fetch_outcome args s :
  (exists raw s1, fetch w args s = (Ret raw, s1) /\ downloaded w args s raw s1)
  \/ (exists s1, fetch w args s = (SysExit 2, s1) /\ download_failed w args s).
Proof.
  rewrite fetch_run.
  destruct (primary_download w args s) as [[raw|e|c] s1] eqn:E1.
  - left. exists raw, s1. split; [done|]. by constructor.
  - destruct (fallback_eligible args e) eqn:Eel.
    + destruct (w_certifi w) as [bundle|] eqn:Ec.
      * destruct (fallback_download w args bundle _) as [[raw|e2|c] s2] eqn:E2.
        -- left. exists raw, s2. split; [done|].
           by eapply downloaded_fallback.
        -- right. eexists; split; [done|]. by eapply failed_fallback.
        -- exfalso. eapply download_no_exit.
           unfold fallback_download in E2. by rewrite E2.
      * right. eexists; split; [done|].
        by eapply failed_fallback_unavailable.
    + right. eexists; split; [done|]. by eapply failed_no_fallback.
  - exfalso. eapply download_no_exit.
    unfold primary_download in E1. by rewrite E1.
Qed.

Lemma main_run args s :
  main w args s =
  if destination_blocked args s then
    (SysExit 1, log_event (EvStderr (MsgExists (args_output args))) s)
  else
    match fetch w args s with
    | (Ret raw, s1) =>
        match loads_utf8 w raw s1 with
        | (Ret parsed, s2) =>
            match write_json w (args_output args) parsed s2 with
            | (Ret _, s3) =>
                (Ret tt, log_event (EvStdout (MsgSaved (args_output args))) s3)
            | (Exc e, s3) =>
                (SysExit 4,
                 log_event (EvStderr (MsgWriteFailed (args_output args) e)) s3)
            | (SysExit c, s3) => (SysExit c, s3)
            end
        | (Exc e, s2) => (SysExit 3, log_event (EvStderr (MsgNotJSON e)) s2)
        | (SysExit c, s2) => (SysExit c, s2)
        end
    | (Exc e, s1) => (Exc e, s1)
    | (SysExit c, s1) => (SysExit c, s1)
    end.
Proof.
  unfold main, destination_blocked, path_exists.
  autounfold with py_monad.
  destruct (bool_decide _ && negb (args_force args)); [reflexivity|].
  destruct (fetch w args s) as [[raw|e|c] s1]; try reflexivity.
  destruct (loads_utf8 w raw s1) as [[parsed|e|c] s2]; try reflexivity.
  destruct (write_json w (args_output args) parsed s2) as [[[]|e|c] s3];
    reflexivity.
Qed.

Lemma write_json_no_exit outpath parsed s code :
  (write_json w outpath parsed s).1 ≠ SysExit code.
Proof.
  unfold write_json.
  destruct (st_fs s !! outpath) as [[content|]|];
    try destruct (w_open_refused w outpath);
    try destruct (w_write_error w outpath _);
    try destruct (PyJson.utf8_encode _); done.
Qed.

End MainFacts.

(** ** The destination guard *)

(** C8. When the output path exists and --force is absent, the program
    exits with status 1; the only thing it does is print the error line:
    no network request is made and no file is touched. *)
Theorem main_destination_exists w args s :
  is_Some (st_fs s !! args_output args) ->
  args_force args = false ->
  let run := main w args s in
  run.1 = SysExit 1 /\
  exit_status run.1 = 1 /\
  st_trace run.2 = st_trace s ++ [EvStderr (MsgExists (args_output args))] /\
  count_attempts (st_trace run.2) = count_attempts (st_trace s) /\
  st_fs run.2 = st_fs s.
Proof.
  intros Hex Hforce run. subst run. rewrite main_run.
  unfold destination_blocked. rewrite Hforce, bool_decide_eq_true_2 by done.
  cbn [andb negb fst snd exit_status log_event st_trace st_fs].
  rewrite count_attempts_app.
  change (count_attempts [EvStderr (MsgExists (args_output args))])
    with 0%nat.
  repeat split; try reflexivity. lia.
Qed.

Lemma main_destination_exists_witness :
  let run := main world_up args_default with_destination in
  run.1 = SysExit 1 /\
  exit_status run.1 = 1 /\
  st_trace run.2
    = st_trace with_destination
      ++ [EvStderr (MsgExists (args_output args_default))] /\
  count_attempts (st_trace run.2)
    = count_attempts (st_trace with_destination) /\
  st_fs run.2 = st_fs with_destination.
Proof.
  apply (main_destination_exists world_up args_default with_destination).
  - exists (File body_a1). reflexivity.
  - reflexivity.
Defined.

(** ** A retry count that is not positive *)

(** C10, as the code has it.  Called with a retry count of zero or less,
    [download] makes no connection attempt and sleeps not at all: it
    leaves the state as it found it.  When lines 31-37 built the context,
    it raises the TypeError of [raise None], which is neither an SSLError
    nor a URLError, and [main], reached with --retries 0, reports a failed
    download and exits with 2.  When [ssl.create_default_context] raised on
    the CA file, that exception is the one raised. *)
Theorem download_nonpositive_retries
    w url timeout retries backoff cafile insecure s :
  retries <= 0 ->
  let e := PyError TypeError "exceptions must derive from BaseException" in
  let run := download w url timeout retries backoff cafile insecure s in
  run.2 = s /\
  (context_error w insecure cafile = None -> run.1 = Exc e) /\
  (forall e0, context_error w insecure cafile = Some e0 -> run.1 = Exc e0) /\
  isinstance_URLError e = false /\
  isinstance_SSLError e = false /\
  forall args s0,
    args_retries args = retries ->
    destination_blocked args s0 = false ->
    context_error w (args_insecure args) (args_cafile args) = None ->
    main w args s0
    = (SysExit 2, log_event (EvStderr (MsgDownloadFailed URL e)) s0).
Proof.
  intros Hneg e run. subst run.
  split; [|split; [|split; [|split; [|split]]]]; try reflexivity.
  - destruct (context_error w insecure cafile) as [e0|] eqn:Hctx.
    + by rewrite (download_no_context _ _ _ _ _ _ _ _ e0).
    + by rewrite download_no_attempt.
  - intros Hctx. by rewrite download_no_attempt.
  - intros e0 Hctx. by rewrite (download_no_context _ _ _ _ _ _ _ _ e0).
  - intros args s0 Hretries Hfree Hctx.
    rewrite main_run, Hfree, fetch_run. unfold primary_download.
    rewrite download_no_attempt by (done || lia). reflexivity.
Qed.

Lemma download_nonpositive_retries_witness :
  let e := PyError TypeError "exceptions must derive from BaseException" in
  let run := download world_up URL 15 0 default_backoff None false no_files in
  run.2 = no_files /\
  (context_error world_up false None = None -> run.1 = Exc e) /\
  (forall e0, context_error world_up false None = Some e0 -> run.1 = Exc e0) /\
  isinstance_URLError e = false /\
  isinstance_SSLError e = false /\
  forall args s0,
    args_retries args = 0 ->
    destination_blocked args s0 = false ->
    context_error world_up (args_insecure args) (args_cafile args) = None ->
    main world_up args s0
    = (SysExit 2, log_event (EvStderr (MsgDownloadFailed URL e)) s0).
Proof.
  apply (download_nonpositive_retries world_up URL 15 0 default_backoff None
           false no_files).
  lia.
Defined.

(** C10, as it is worded, fails when the CA file cannot be loaded: with
    --retries 0 and a bundle that does not exist, what [download] raises is
    the FileNotFoundError of line 37, not a TypeError, and this is the
    error [main] prints. *)
Lemma missing_bundle_raises_first :
  download world_no_bundle URL 15 0 default_backoff
           (Some "/nonexistent/ca.pem") false no_files
  = (Exc missing_bundle, no_files) /\
  missing_bundle
  <> PyError TypeError "exceptions must derive from BaseException" /\
  main world_no_bundle args_no_bundle no_files
  = (SysExit 2,
     log_event (EvStderr (MsgDownloadFailed URL missing_bundle)) no_files).
Proof. split; [reflexivity | split; [discriminate | reflexivity]]. Qed.

(** ** The TLS context *)

(** C9. With [insecure] set, the context has certificate validation and
    hostname checking switched off and does not depend on the CA file, so
    [insecure] wins over a CA file; with a CA-file path alone, the context
    verifies against that file; with neither (no path, or an empty one),
    there is no context and the platform's default trust applies.  Every
    connection attempt of [download] is made with the context so chosen,
    which is the one lines 31-37 build unless loading the CA file raises. *)
Theorem download_trust_precedence cafile insecure :
  (insecure = true ->
   make_ctx insecure cafile
   = Some {| check_hostname := false; verify_mode := CERT_NONE;
             trust_roots := SystemRoots |}) /\
  (forall path,
     insecure = false -> cafile = Some path -> path <> "" ->
     make_ctx insecure cafile
     = Some {| check_hostname := true; verify_mode := CERT_REQUIRED;
               trust_roots := CAFileRoots path |}) /\
  (insecure = false -> cafile = None \/ cafile = Some "" ->
   make_ctx insecure cafile = None) /\
  (forall w url timeout retries backoff s,
     exists added,
       st_trace (download w url timeout retries backoff cafile insecure s).2
         = st_trace s ++ added /\
       forall u t c, In (EvUrlopen u t c) added ->
                     c = make_ctx insecure cafile) /\
  (forall w s,
     build_context w cafile insecure s
     = match context_error w insecure cafile with
       | Some e => (Exc e, s)
       | None => (Ret (make_ctx insecure cafile), s)
       end).
Proof.
  split; [|split; [|split; [|split; [|intros; apply build_context_run]]]].
  - intros ->. reflexivity.
  - intros path -> -> Hpath. unfold make_ctx, cafile_truthy.
    destruct (String.eqb_spec path ""); [done|]. reflexivity.
  - intros -> [-> | ->]; reflexivity.
  - intros w url timeout retries backoff s.
    destruct (download_trace w url timeout retries backoff cafile insecure s)
      as (added & Hrun & Hshape).
    exists added. rewrite Hrun. split; [reflexivity|].
    intros u t c Hin. rewrite Forall_forall in Hshape.
    apply list_elem_of_In, Hshape in Hin. tauto.
Qed.

Lemma download_trust_precedence_witness :
  make_ctx true (Some "/etc/ssl/corp.pem")
  = Some {| check_hostname := false; verify_mode := CERT_NONE;
            trust_roots := SystemRoots |} /\
  make_ctx false (Some "/etc/ssl/corp.pem")
  = Some {| check_hostname := true; verify_mode := CERT_REQUIRED;
            trust_roots := CAFileRoots "/etc/ssl/corp.pem" |} /\
  make_ctx false None = None.
Proof.
  split; [|split].
  - apply (download_trust_precedence (Some "/etc/ssl/corp.pem") true).
    reflexivity.
  - apply (download_trust_precedence (Some "/etc/ssl/corp.pem") false);
      [reflexivity | reflexivity | discriminate].
  - apply (download_trust_precedence None false); [reflexivity | by left].
Defined.

(** ** Exit codes *)

Section ExitCodes.

Variable w : World.

Lemma downloaded_functional args s raw1 s1 raw2 s2 :
  downloaded w args s raw1 s1 -> downloaded w args s raw2 s2 ->
  raw1 = raw2 /\ s1 = s2.
Proof. intros [] []; split; congruence. Qed.



End ExitCodes.


(** Each of the five statuses occurs. *)
Example exit_statuses_occur :
  exit_status (main world_up args_default no_files).1 = 0 /\
  exit_status (main world_up args_default with_destination).1 = 1 /\
  exit_status (main world_down args_default no_files).1 = 2 /\
  exit_status (main world_html args_default no_files).1 = 3 /\
  exit_status (main world_readonly args_default no_files).1 = 4.
Proof. repeat split; vm_compute; reflexivity. Qed.

(** A CA file that cannot be loaded ends the run with status 2 before any
    request, although the server would answer; a well-formed document
    beyond the limits of the interpreter ends it with status 3. *)
Example statuses_of_the_environment :
  main world_no_bundle args_missing_cafile no_files
  = (SysExit 2,
     log_event (EvStderr (MsgDownloadFailed URL missing_bundle)) no_files) /\
  exit_status (main world_long_integer args_default no_files).1 = 3 /\
  exit_status (main world_deep_nesting args_default no_files).1 = 3.
Proof. repeat split; vm_compute; reflexivity. Qed.

(** ** Classifying the failure *)

Lemma append_cons c (s t : string) :
  (String c s ++ t)%string = String c (s ++ t)%string.
Proof. reflexivity. Qed.

Lemma prefix_occurs needle hay :
  String.prefix needle hay = true <->
  exists after : string, hay = (needle ++ after)%string.
Proof.
  revert hay. induction needle as [|a needle IH]; intros [|b hay]; simpl.
  - split; [intros _; by exists EmptyString | done].
  - split; [intros _; by exists (String b hay) | done].
  - split; [done | intros [after Hafter]; discriminate].
  - setoid_rewrite append_cons.
    destruct (ascii_dec a b) as [->|Hne].
    + rewrite IH. split; intros [after Hafter]; exists after; congruence.
    + split; [done | intros [after Hafter]; congruence].
Qed.

(** [str_in] decides occurrence as a substring. *)
Lemma str_in_occurs needle hay :
  str_in needle hay = true <-> occurs_in needle hay.
Proof.
  unfold occurs_in. induction hay as [|c hay IH]; cbn [str_in].
  - rewrite orb_false_r, prefix_occurs. split.
    + intros [after Hafter]. by exists EmptyString, after.
    + intros ([|c before] & after & Heq); [by exists after | discriminate].
  - rewrite orb_true_iff, prefix_occurs, IH. split.
    + intros [[after Heq] | (before & after & Heq)].
      * by exists EmptyString, after.
      * exists (String c before), after. by rewrite append_cons, Heq.
    + intros ([|c' before] & after & Heq).
      * left. by exists after.
      * right. exists before, after. rewrite append_cons in Heq. congruence.
Qed.

(** C2, as the code has it.  A failure is classified as a
    certificate-verification failure exactly when it is an SSLError, or it
    is a URLError with a non-empty reason whose text contains
    CERTIFICATE_VERIFY_FAILED or certificate verify failed, letter for
    letter.  Other letter cases, and the text of other exceptions, do not
    count. *)
Theorem is_ssl_err_spec e :
  is_ssl_err e = true <->
  isinstance_SSLError e = true \/
  (isinstance_URLError e = true /\
   reason_truthy (getattr_reason e) = true /\
   (occurs_in "CERTIFICATE_VERIFY_FAILED" (str_reason (getattr_reason e)) \/
    occurs_in "certificate verify failed" (str_reason (getattr_reason e)))).
Proof.
  unfold is_ssl_err. rewrite <- !str_in_occurs, <- orb_true_iff.
  destruct (isinstance_SSLError e), (isinstance_URLError e),
    (reason_truthy (getattr_reason e)); cbn [andb];
    destruct (_ || _); intuition congruence.
Qed.

(** C2, as it is worded, fails in both directions: a reason spelt in
    another letter case is described as a verification failure and is not
    classified as one, and an SSLError about a bad record is classified as
    one without being described so. *)
Lemma is_ssl_err_not_case_insensitive :
  described_as_verification_failure mixed_case_failure = true /\
  is_ssl_err mixed_case_failure = false /\
  described_as_verification_failure record_mac_failure = false /\
  is_ssl_err record_mac_failure = true.
Proof. repeat split; vm_compute; reflexivity. Qed.

(** ** Status codes *)

Section StatusFacts.

Variable w : World.

Lemma attempt_result_status_as_error o :
  attempt_result (status_as_error o) = attempt_result o.
Proof.
  destruct o as [resp|e]; [|reflexivity]. simpl.
  destruct (default 200 (resp_status resp) =? 200)%Z eqn:E; simpl;
    by rewrite ?E.
Qed.

Lemma attempt_once_raising_on_status url timeout ctx s :
  attempt_once (raising_on_status w) url timeout ctx s
  = attempt_once w url timeout ctx s.
Proof.
  rewrite !attempt_once_run. simpl.
  by rewrite attempt_result_status_as_error.
Qed.

Lemma download_loop_raising_on_status url timeout retries backoff ctx
    attempts : forall last_exc s,
  download_loop (raising_on_status w) url timeout retries backoff ctx
                attempts last_exc s
  = download_loop w url timeout retries backoff ctx attempts last_exc s.
Proof.
  induction attempts as [|attempt rest IH]; intros last_exc s;
    [reflexivity|].
  rewrite !download_loop_cons, attempt_once_raising_on_status.
  destruct (attempt_once w url timeout ctx s) as [[body|e|c] s1]; try done.
  destruct (attempt =? retries)%Z; [done|].
  change (pause_error (raising_on_status w)) with (pause_error w).
  destruct (pause_error w backoff attempt); [done | apply IH].
Qed.

End StatusFacts.

(** C6, as the code has it.  Within one attempt, a response whose status
    is 200 (or that has no status attribute) is a success and what
    [read()] returns is returned whole; a response with any other status,
    2xx included, makes the attempt raise an HTTPError with that status.
    The retry loop cannot tell this failure from a transport error: a
    download behaves the same when [urlopen] raises that HTTPError
    itself. *)
Theorem attempt_status_handling w url timeout resp s :
  (forall body,
     default 200 (resp_status resp) = 200 -> resp_read resp = inl body ->
     with_resp url resp s = (Ret body, s)) /\
  (forall code,
     resp_status resp = Some code -> code <> 200 ->
     with_resp url resp s
     = (Exc (HTTPError code (default "" (resp_reason resp))), s)) /\
  (forall retries backoff cafile insecure,
     download (raising_on_status w) url timeout retries backoff cafile
              insecure s
     = download w url timeout retries backoff cafile insecure s).
Proof.
  split; [|split].
  - intros body Hstatus Hread. unfold with_resp.
    rewrite Hstatus, Hread. reflexivity.
  - intros code Hstatus Hcode. unfold with_resp. rewrite Hstatus. simpl.
    destruct (Z.eqb_spec code 200); [done | reflexivity].
  - intros. rewrite !download_unfold.
    change (context_error (raising_on_status w)) with (context_error w).
    destruct (context_error w insecure cafile); [done|].
    apply download_loop_raising_on_status.
Qed.

Lemma attempt_status_handling_witness :
  with_resp URL (response_ok body_a1) no_files = (Ret body_a1, no_files) /\
  with_resp URL response_204 no_files
  = (Exc (HTTPError 204 "No Content"), no_files).
Proof.
  split.
  - apply (proj1 (attempt_status_handling world_up URL 15
                    (response_ok body_a1) no_files)); reflexivity.
  - apply (proj1 (proj2 (attempt_status_handling world_204 URL 15
                           response_204 no_files)));
      [reflexivity | lia].
Defined.

(** C6, as it is worded, fails for the 2xx statuses other than 200: a
    server that answers 204 makes the download fail. *)
Lemma status_204_is_a_failure :
  200 <= 204 < 300 /\
  download world_204 URL 15 1 default_backoff None false no_files
  = (Exc (HTTPError 204 "No Content"),
     log_event (EvUrlopen URL 15 None) no_files).
Proof. split; [lia | reflexivity]. Qed.

(** ** The certifi fallback *)

Lemma fallback_runs_app tr1 tr2 :
  fallback_runs (tr1 ++ tr2) = (fallback_runs tr1 + fallback_runs tr2)%nat.
Proof. unfold fallback_runs. by rewrite filter_app, length_app. Qed.

Lemma fallback_runs_singleton ev :
  fallback_runs [ev] = if is_retry_notice ev then 1%nat else 0%nat.
Proof.
  unfold fallback_runs. rewrite filter_cons, filter_nil.
  destruct (is_retry_notice ev); by case_decide.
Qed.

Lemma count_attempts_singleton ev :
  count_attempts [ev] = if is_attempt ev then 1%nat else 0%nat.
Proof.
  unfold count_attempts. rewrite filter_cons, filter_nil.
  destruct (is_attempt ev); by case_decide.
Qed.

Section FallbackFacts.

Variable w : World.

(** [download] prints nothing and leaves the files alone. *)
Lemma download_quiet url timeout retries backoff cafile insecure s :
  let s' := (download w url timeout retries backoff cafile insecure s).2 in
  fallback_runs (st_trace s') = fallback_runs (st_trace s) /\
  st_fs s' = st_fs s.
Proof.
  destruct (download_trace w url timeout retries backoff cafile insecure s)
    as (added & -> & Hshape).
  split; [|reflexivity]. simpl. rewrite fallback_runs_app.
  assert (fallback_runs added = 0%nat) as ->; [|lia].
  induction Hshape as [|ev added Hev _ IH]; [reflexivity|].
  change (ev :: added) with ([ev] ++ added). rewrite fallback_runs_app, IH.
  by destruct ev.
Qed.

Lemma loads_utf8_state raw s : (loads_utf8 w raw s).2 = s.
Proof.
  pose proof (loads_utf8_run w raw s) as H.
  destruct (parse_bytes w raw); [by rewrite H | by destruct H as [e ->]].
Qed.

Lemma write_json_trace outpath parsed s :
  st_trace (write_json w outpath parsed s).2 = st_trace s.
Proof.
  unfold write_json.
  destruct (st_fs s !! outpath) as [[content|]|];
    try destruct (w_open_refused w outpath);
    try destruct (w_write_error w outpath _);
    try destruct (PyJson.utf8_encode _); reflexivity.
Qed.

(** After a fetch that delivered, [main] only prints one more line. *)
Lemma main_after_fetch args s raw s1 :
  destination_blocked args s = false ->
  fetch w args s = (Ret raw, s1) ->
  exists ev, st_trace (main w args s).2 = st_trace s1 ++ [ev] /\
             is_attempt ev = false /\ is_retry_notice ev = false.
Proof.
  intros Hfree Hfetch. rewrite main_run, Hfree, Hfetch.
  pose proof (loads_utf8_run w raw s1) as Hloads.
  destruct (parse_bytes w raw) as [parsed|];
    [rewrite Hloads | destruct Hloads as [e ->]; by eexists].
  pose proof (write_json_trace (args_output args) parsed s1) as Htr.
  pose proof (write_json_no_exit w (args_output args) parsed s1) as Hne.
  destruct (write_json w (args_output args) parsed s1) as [[[]|e|c] s3];
    simpl in *; [| |by destruct (Hne c)]; rewrite Htr; by eexists.
Qed.

End FallbackFacts.

(** C1, as the code has it.  A run announces and makes the certifi
    fallback at most once, and it does so exactly when the destination is
    free, the first fetch raised an exception that [is_ssl_err] classifies
    as a verification failure, --insecure was absent, --cafile was absent
    or empty, and certifi is installed.  The first fetch then ran without
    a context (default trust), and what follows the announcement is one
    call of [download] with the CA bundle of certifi and the same retry
    count, after which no further request is made.  When the first fetch
    raises an exception that is not so classified, [main] prints the
    failure and exits with 2 at once. *)
Theorem fallback_only_on_verification_failure w args s :
  let run := main w args s in
  let before := fallback_runs (st_trace s) in
  let after := fallback_runs (st_trace run.2) in
  let primary :=
    download w URL default_timeout (args_retries args) default_backoff
             (args_cafile args) (args_insecure args) s in
  (after = before \/ after = S before) /\
  (after = S before <->
   destination_blocked args s = false /\
   exists e bundle,
     primary.1 = Exc e /\
     is_ssl_err e = true /\
     args_insecure args = false /\
     cafile_truthy (args_cafile args) = false /\
     w_certifi w = Some bundle) /\
  (forall e s1 bundle,
     destination_blocked args s = false ->
     primary = (Exc e, s1) ->
     is_ssl_err e = true ->
     args_insecure args = false ->
     cafile_truthy (args_cafile args) = false ->
     w_certifi w = Some bundle ->
     make_ctx (args_insecure args) (args_cafile args) = None /\
     exists rest,
       st_trace run.2
       = st_trace (download w URL default_timeout (args_retries args)
                     default_backoff (Some bundle) false
                     (log_event (EvStderr MsgRetryCertifi) s1)).2 ++ rest /\
       count_attempts rest = 0%nat /\
       fallback_runs rest = 0%nat /\
       fallback_runs (st_trace s1) = before) /\
  (forall e s1,
     destination_blocked args s = false ->
     primary = (Exc e, s1) ->
     is_ssl_err e = false ->
     run = (SysExit 2, log_event (EvStderr (MsgDownloadFailed URL e)) s1)).
Proof.
  intros run before after primary. subst run before after primary.
  destruct (destination_blocked args s) eqn:Hblocked.
  { rewrite main_run, Hblocked. cbn [snd log_event st_trace].
    rewrite fallback_runs_app, fallback_runs_singleton.
    cbn [is_retry_notice].
    split; [left; lia|].
    split; [split; [intros; lia | intros [? _]; discriminate]|].
    split; intros; discriminate. }
  pose proof (fetch_run w args s) as Hfetch.
  pose proof (download_quiet w URL default_timeout (args_retries args)
                default_backoff (args_cafile args) (args_insecure args) s)
    as [Hquiet _].
  fold (primary_download w args) in Hquiet |- *.
  destruct (primary_download w args s) as [[raw|e|c] s1] eqn:Hprimary;
    cbn [fst snd] in Hquiet |- *.
  - (* the first fetch delivers *)
    destruct (main_after_fetch w args s raw s1 Hblocked Hfetch)
      as (ev & -> & _ & Hev).
    rewrite fallback_runs_app, Hquiet.
    rewrite fallback_runs_singleton, Hev.
    split; [left; lia|].
    split; [split; [intros; lia | intros (_ & ? & ? & ? & _); discriminate]|].
    split; intros; discriminate.
  - destruct (fallback_eligible args e) eqn:Heligible.
    + destruct (w_certifi w) as [bundle|] eqn:Hcertifi.
      * (* the fallback runs *)
        pose proof (download_quiet w URL default_timeout (args_retries args)
                      default_backoff (Some bundle) false
                      (log_event (EvStderr MsgRetryCertifi) s1))
          as [Hquiet2 _].
        pose proof (download_no_exit w URL default_timeout
                      (args_retries args) default_backoff (Some bundle) false
                      (log_event (EvStderr MsgRetryCertifi) s1)) as Hne.
        fold (fallback_download w args bundle) in Hquiet2, Hne |- *.
        cbn [log_event st_trace] in Hquiet2.
        rewrite fallback_runs_app, fallback_runs_singleton, Hquiet
          in Hquiet2.
        cbn [is_retry_notice] in Hquiet2.
        unfold fallback_eligible in Heligible.
        apply andb_prop in Heligible as [Heligible Hcafile].
        apply andb_prop in Heligible as [Hssl Hinsecure].
        apply negb_true_iff in Hcafile, Hinsecure.
        assert (Hrest : exists rest,
                  st_trace (main w args s).2
                  = st_trace (fallback_download w args bundle
                                (log_event (EvStderr MsgRetryCertifi) s1)).2
                    ++ rest /\
                  count_attempts rest = 0%nat /\ fallback_runs rest = 0%nat).
        { destruct (fallback_download w args bundle _)
            as [[raw|e2|c] s2] eqn:Hfallback.
          - destruct (main_after_fetch w args s raw s2 Hblocked Hfetch)
              as (ev & -> & Hatt & Hev).
            exists [ev]. split; [reflexivity|].
            by rewrite count_attempts_singleton, fallback_runs_singleton,
              Hatt, Hev.
          - rewrite main_run, Hblocked, Hfetch. cbn [snd log_event st_trace].
            rewrite <- app_assoc. eexists. split; [reflexivity|]. done.
          - by destruct (Hne c). }
        destruct Hrest as (rest & Hrest & Hcount & Hruns).
        rewrite Hrest, fallback_runs_app, Hquiet2, Hruns.
        split; [right; lia|].
        split; [split; [intros _; split; [done|]; by exists e, bundle
                       | intros; lia]|].
        split.
        -- intros e' s1' bundle' _ [= <- <-] _ _ _ [= <-].
           split; [unfold make_ctx; by rewrite Hinsecure, Hcafile|].
           exists rest. repeat split; done.
        -- intros e' s1' _ [= <- <-] Hssl'. congruence.
      * (* certifi is missing *)
        rewrite main_run, Hblocked, Hfetch. cbn [snd log_event st_trace].
        rewrite !fallback_runs_app, !fallback_runs_singleton, Hquiet.
        cbn [is_retry_notice].
        split; [left; lia|].
        split; [split; [intros; lia
                       | intros (_ & ? & ? & _ & _ & _ & _ & ?); discriminate]|].
        split; [intros; discriminate|].
        intros e' s1' _ [= <- <-] Hssl'.
        unfold fallback_eligible in Heligible. by rewrite Hssl' in Heligible.
    + (* no fallback is due *)
      rewrite main_run, Hblocked, Hfetch. cbn [snd log_event st_trace].
      rewrite fallback_runs_app, fallback_runs_singleton, Hquiet.
      cbn [is_retry_notice].
      split; [left; lia|].
      split; [split; [intros; lia|]|].
      { intros (_ & e' & bundle & [= <-] & Hssl & Hinsecure & Hcafile & _).
        unfold fallback_eligible in Heligible.
        by rewrite Hssl, Hinsecure, Hcafile in Heligible. }
      split.
      * intros e' s1' bundle _ [= <- <-] Hssl Hinsecure Hcafile _.
        unfold fallback_eligible in Heligible.
        by rewrite Hssl, Hinsecure, Hcafile in Heligible.
      * intros e' s1' _ [= <- <-] _. reflexivity.
  - exfalso. eapply (download_no_exit w). unfold primary_download in Hprimary.
    by rewrite Hprimary.
Qed.

(** C1, as it is worded, fails on the command line --cafile '' : the flag
    is passed, its empty value counts as absent, and the fallback runs. *)
Lemma fallback_despite_cafile_flag :
  args_cafile args_empty_cafile <> None /\
  fallback_runs
    (st_trace (main world_mistrusted args_empty_cafile no_files).2) = 1%nat /\
  (main world_mistrusted args_empty_cafile no_files).1 = Ret tt.
Proof. split; [discriminate | split; vm_compute; reflexivity]. Qed.

Lemma fallback_only_on_verification_failure_witness :
  fallback_runs
    (st_trace (main world_mistrusted args_default no_files).2) = 1%nat /\
  make_ctx (args_insecure args_default) (args_cafile args_default) = None /\
  exists rest,
    st_trace (main world_mistrusted args_default no_files).2
    = st_trace (download world_mistrusted URL default_timeout 3
                  default_backoff (Some "/site-packages/certifi/cacert.pem")
                  false
                  (log_event (EvStderr MsgRetryCertifi)
                     (primary_download world_mistrusted args_default
                        no_files).2)).2 ++ rest /\
    count_attempts rest = 0%nat /\
    fallback_runs rest = 0%nat /\
    fallback_runs
      (st_trace (primary_download world_mistrusted args_default no_files).2)
    = 0%nat.
Proof.
  split; [vm_compute; reflexivity|].
  apply (proj1 (proj2 (proj2 (fallback_only_on_verification_failure
                                world_mistrusted args_default no_files)))
           verification_failure);
    reflexivity.
Defined.

(** A 404 is not classified as a verification failure: after the three
    attempts of the first fetch the run prints the failure and exits. *)
Example not_found_exits_at_once :
  main world_404 args_default no_files
  = (SysExit 2,
     extend no_files
       [EvUrlopen URL 15 None; EvSleep 1.5;
        EvUrlopen URL 15 None; EvSleep 3;
        EvUrlopen URL 15 None;
        EvStderr (MsgDownloadFailed URL (HTTPError 404 "Not Found"))]).
Proof. reflexivity. Qed.

(** ** UTF-8 *)

Section Utf8Facts.

Import PyJson.

Lemma to_N_byte_of_N n : (n < 256)%N -> Byte.to_N (byte_of_N n) = n.
Proof.
  intros Hn. unfold byte_of_N.
  destruct (Byte.of_N n) as [b|] eqn:E.
  - by apply Byte.to_of_N.
  - apply Byte.of_N_None_iff in E. lia.
Qed.

(** Settles the range tests of the codec: the equality tests by cases,
    the comparisons by arithmetic. *)
Ltac decide_tests :=
  unfold in_range, is_cont;
  repeat first
    [ progress cbn [andb]
    | match goal with
      | |- context [(?a <? ?b)%N] =>
          first [rewrite (proj2 (N.ltb_lt a b)) by lia
                | rewrite (proj2 (N.ltb_ge a b)) by lia]
      end
    | match goal with
      | |- context [(?a <=? ?b)%N] =>
          first [rewrite (proj2 (N.leb_le a b)) by lia
                | rewrite (proj2 (N.leb_gt a b)) by lia]
      end
    | match goal with
      | |- context [(?a =? ?b)%N] => destruct (N.eqb_spec a b)
      end ].

(** Quotients and remainders become variables with their defining
    facts, after which the goals are linear. *)
Ltac name_quotient a k :=
  let q := fresh "q" in
  let r := fresh "r" in
  pose proof (N.div_mod' a k);
  pose proof (N.mod_lt a k ltac:(lia));
  set (q := (a / k)%N) in *; set (r := (a mod k)%N) in *;
  clearbody q r.

Ltac name_quotients c :=
  name_quotient (c / 4096)%N 64%N; name_quotient (c / 64)%N 64%N;
  name_quotient c 262144%N; name_quotient c 4096%N; name_quotient c 64%N.

Ltac all_bytes :=
  repeat first [apply Forall_nil_2 | apply Forall_cons_2; [lia|]].

(** The bytes of one code point decode to it. *)
Lemma utf8_decode_encode_cp c bs rest :
  utf8_encode_cp c = Some bs ->
  Forall (fun b => (b < 256)%N) bs /\
  utf8_decode_N (bs ++ rest) = cons c <$> utf8_decode_N rest.
Proof.
  unfold utf8_encode_cp. name_quotients c.
  destruct (N.ltb_spec c 0x80).
  { intros [= <-]. split; [all_bytes|].
    cbn [app utf8_decode_N]. by decide_tests. }
  destruct (N.ltb_spec c 0x800).
  { intros [= <-]. split; [all_bytes|].
    cbn [app utf8_decode_N]. decide_tests. do 2 f_equal. lia. }
  unfold in_range at 1.
  destruct (N.leb_spec 0xD800 c); cbn [andb];
    [destruct (N.leb_spec c 0xDFFF); [done|]|];
    (destruct (N.ltb_spec c 0x10000);
     [|destruct (N.ltb_spec c 0x110000); [|done]]);
    intros [= <-]; (split; [all_bytes|]);
    cbn [app utf8_decode_N]; decide_tests; try lia; do 2 f_equal; lia.
Qed.

Lemma utf8_decode_encode_N text : forall bs,
  utf8_encode_N text = Some bs ->
  Forall (fun b => (b < 256)%N) bs /\ utf8_decode_N bs = Some text.
Proof.
  induction text as [|c text IH]; intros bs; cbn [utf8_encode_N].
  - intros [= <-]. by split.
  - destruct (utf8_encode_cp c) as [cbs|] eqn:Hc; [|done].
    destruct (utf8_encode_N text) as [more|]; [|done].
    intros [= <-].
    destruct (utf8_decode_encode_cp c cbs more Hc) as [Hbytes Hdec].
    destruct (IH more eq_refl) as [Hmore Hrest].
    split; [by apply Forall_app|]. by rewrite Hdec, Hrest.
Qed.

(** What [utf8_encode] writes, [utf8_decode] reads back. *)
Lemma utf8_decode_encode text content :
  utf8_encode text = Some content -> utf8_decode content = Some text.
Proof.
  unfold utf8_encode, utf8_decode.
  destruct (utf8_encode_N text) as [bs|] eqn:Hbs; [|done].
  intros [= <-].
  destruct (utf8_decode_encode_N text bs Hbs) as [Hbytes <-].
  f_equal. rewrite <- list_fmap_compose.
  rewrite <- (list_fmap_id bs) at 2. apply Forall_fmap_ext_1.
  eapply Forall_impl; [exact Hbytes|]. intros b Hb. by apply to_N_byte_of_N.
Qed.

End Utf8Facts.

(** ** The persisted file *)

Section PersistFacts.

Variable w : World.

Lemma downloaded_fs args s raw s1 :
  downloaded w args s raw s1 -> st_fs s1 = st_fs s.
Proof.
  intros [raw' s1' Hprimary | e s1' bundle raw' s2 Hprimary _ _ Hfallback].
  - pose proof (download_quiet w URL default_timeout (args_retries args)
                  default_backoff (args_cafile args) (args_insecure args) s)
      as [_ Hfs].
    fold (primary_download w args) in Hfs. by rewrite Hprimary in Hfs.
  - pose proof (download_quiet w URL default_timeout (args_retries args)
                  default_backoff (args_cafile args) (args_insecure args) s)
      as [_ Hfs1].
    pose proof (download_quiet w URL default_timeout (args_retries args)
                  default_backoff (Some bundle) false
                  (log_event (EvStderr MsgRetryCertifi) s1'))
      as [_ Hfs2].
    fold (primary_download w args) in Hfs1.
    fold (fallback_download w args bundle) in Hfs2.
    rewrite Hprimary in Hfs1. rewrite Hfallback in Hfs2.
    simpl in *. congruence.
Qed.

(** A run that ends well wrote the re-serialised document. *)
Lemma main_success args s :
  (main w args s).1 = Ret tt ->
  exists raw s1 parsed content,
    downloaded w args s raw s1 /\
    parse_bytes w raw = Some parsed /\
    PyJson.utf8_encode (dump_text w parsed) = Some content /\
    st_fs (main w args s).2 = <[args_output args := File content]> (st_fs s).
Proof.
  rewrite main_run.
  destruct (destination_blocked args s); [done|].
  destruct (fetch_outcome w args s) as [(raw & s1 & -> & Hdl)|(s1 & -> & _)];
    [|done].
  pose proof (loads_utf8_run w raw s1) as Hloads.
  destruct (parse_bytes w raw) as [parsed|] eqn:Hparse;
    [rewrite Hloads | destruct Hloads as [e ->]; done].
  unfold write_json. rewrite (downloaded_fs _ _ _ _ Hdl).
  destruct (st_fs s !! args_output args) as [[old|]|];
    try done;
    (destruct (w_open_refused w (args_output args)); [done|]);
    (destruct (w_write_error w (args_output args) _); [done|]);
    (destruct (PyJson.utf8_encode (dump_text w parsed)) as [content|] eqn:Henc;
     [|done]);
    intros _; by exists raw, s1, parsed, content.
Qed.

End PersistFacts.

(** In a string, every character from U+0020 on other than the quote and
    the backslash is written as it is; this covers all non-ASCII
    characters. *)
Lemma escape_char_literal (c : N) :
  (32 <= c)%N -> c <> 34%N -> c <> 92%N -> PyJson.escape_char c = [c].
Proof.
  intros Hc Hq Hb. unfold PyJson.escape_char.
  repeat match goal with
         | |- context [(c =? ?k)%N] => destruct (N.eqb_spec c k); [lia|]
         end.
  destruct (N.ltb_spec c 32); [lia | reflexivity].
Qed.

(** Whatever the limits of the interpreter, [body_a1] parses to the
    object that maps a to 1, if it parses. *)
Lemma parse_bytes_a1 w parsed :
  parse_bytes w body_a1 = Some parsed ->
  parsed = PyJson.JDict [(PyJson.cps "a", PyJson.JInt 1)].
Proof.
  unfold parse_bytes.
  let text := eval vm_compute in (PyJson.utf8_decode body_a1) in
  change (PyJson.utf8_decode body_a1) with text.
  cbn [mbind option_bind]. unfold PyJson.json_loads.
  match goal with
  | |- context [PyJson.lex PyJson.LStart ?text] =>
      let toks := eval vm_compute in (PyJson.lex PyJson.LStart text) in
      change (PyJson.lex PyJson.LStart text) with toks
  end.
  cbn [mbind option_bind]. destruct (forallb _ _); [|done].
  destruct (w_max_nesting w) as [|n]; [done|].
  cbn. by intros [= <-].
Qed.

(** C7, as the code has it.  A run that ends well leaves in the output
    file the UTF-8 encoding of the text that [json.dumps] gives for the
    parsed document with indent=2 and ensure_ascii=False, and nothing more:
    for the body that maps a to 1, the twelve bytes of [pretty_a1], with
    no line break after the closing brace.  In that text each nesting level
    is indented by two more spaces, and every character of a string except
    the quote, the backslash and the control characters is written
    unescaped. *)
Theorem persisted_file_is_pretty_json w args s :
  (main w args s).1 = Ret tt ->
  (exists raw s1 parsed content,
     downloaded w args s raw s1 /\
     parse_bytes w raw = Some parsed /\
     PyJson.utf8_encode (PyJson.json_dumps (w_float_repr w) parsed)
       = Some content /\
     PyJson.utf8_decode content
       = Some (PyJson.json_dumps (w_float_repr w) parsed) /\
     st_fs (main w args s).2 = <[args_output args := File content]> (st_fs s) /\
     (raw = body_a1 -> content = pretty_a1)) /\
  (forall level,
     PyJson.newline_indent level = 10%N :: repeat 32%N (2 * level)) /\
  (forall level x,
     PyJson.encode (w_float_repr w) level (PyJson.JList [x])
     = [91%N] ++ PyJson.newline_indent (S level)
       ++ PyJson.encode (w_float_repr w) (S level) x
       ++ PyJson.newline_indent level ++ [93%N]) /\
  (forall level key x,
     PyJson.encode (w_float_repr w) level (PyJson.JDict [(key, x)])
     = [123%N] ++ PyJson.newline_indent (S level)
       ++ (PyJson.encode_basestring key ++ [58%N; 32%N]
           ++ PyJson.encode (w_float_repr w) (S level) x)
       ++ PyJson.newline_indent level ++ [125%N]) /\
  (forall c, (32 <= c)%N -> c <> 34%N -> c <> 92%N ->
             PyJson.escape_char c = [c]).
Proof.
  intros Hok. split; [|split; [|split; [|split]]].
  - destruct (main_success w args s Hok)
      as (raw & s1 & parsed & content & Hdl & Hparse & Henc & Hfs).
    exists raw, s1, parsed, content.
    split; [done|]. split; [done|]. split; [done|].
    split; [by apply utf8_decode_encode|]. split; [done|].
    intros ->. apply parse_bytes_a1 in Hparse. subst parsed.
    vm_compute in Henc. injection Henc as <-. reflexivity.
  - reflexivity.
  - reflexivity.
  - reflexivity.
  - apply escape_char_literal.
Qed.

(** C7, as it is worded, fails on the trailing newline: the file written
    for the body that maps a to 1 is [pretty_a1], whose last byte is the
    closing brace. *)
Lemma no_trailing_newline :
  let run := main world_up args_default no_files in
  run.1 = Ret tt /\
  st_fs run.2 !! args_output args_default = Some (File pretty_a1) /\
  st_fs run.2 !! args_output args_default
    <> Some (File (pretty_a1 ++ [Byte.x0a])) /\
  last pretty_a1 = Some Byte.x7d.
Proof. repeat split; vm_compute; congruence. Qed.

Lemma persisted_file_is_pretty_json_witness :
  (main world_up args_default no_files).1 = Ret tt /\
  exists raw s1 parsed content,
    downloaded world_up args_default no_files raw s1 /\
    parse_bytes world_up raw = Some parsed /\
    PyJson.utf8_encode (PyJson.json_dumps (w_float_repr world_up) parsed)
      = Some content /\
    PyJson.utf8_decode content
      = Some (PyJson.json_dumps (w_float_repr world_up) parsed) /\
    st_fs (main world_up args_default no_files).2
      = <[args_output args_default := File content]> (st_fs no_files) /\
    (raw = body_a1 -> content = pretty_a1).
Proof.
  split; [vm_compute; reflexivity|].
  apply (persisted_file_is_pretty_json world_up args_default no_files).
  vm_compute. reflexivity.
Defined.


(** * Further properties of [download] *)

(** X1. [download] stops at the first attempt that succeeds: when the
    context is built, the attempts 1 .. m fail and are each slept after,
    and attempt m+1, still within the retry count, reads a body, the call
    returns that body after exactly these m+1 attempts, having slept
    [backoff * k] after the k-th failure, and makes no further request. *)
Theorem download_stops_at_first_success
    w url timeout retries backoff cafile insecure s m body :
  let ctx := make_ctx insecure cafile in
  let before j :=
    extend s (failed_attempts url timeout backoff ctx (attempts_from 1 j)) in
  context_error w insecure cafile = None ->
  (m < Z.to_nat retries)%nat ->
  pauses_accepted w backoff m ->
  (forall j, (j < m)%nat ->
     exists e, (attempt_once w url timeout ctx (before j)).1 = Exc e) ->
  (attempt_once w url timeout ctx (before m)).1 = Ret body ->
  download w url timeout retries backoff cafile insecure s
  = (Ret body,
     extend s (failed_attempts url timeout backoff ctx (attempts_from 1 m)
               ++ [EvUrlopen url timeout ctx])).
Proof.
  intros ctx before Hctx Hm Hpauses Hfail Hok. subst ctx before.
  destruct (download_run_pauses w url timeout retries backoff cafile insecure
              s ltac:(lia) Hctx)
    as (m' & Hm' & Hstate & Hbefore & Hend).
  cbn zeta in *.
  assert (m' = m) as ->.
  { destruct (lt_eq_lt_dec m' m) as [[Hlt | ->] | Hgt]; [exfalso | done | exfalso].
    - destruct (Hfail m' Hlt) as [e He].
      destruct Hend as [[_ Hlast] | (_ & _ & e' & Hpause & _)].
      + apply Hlast in He. lia.
      + rewrite Hpauses in Hpause by lia. discriminate.
    - destruct (Hbefore m Hgt) as [[e He] _]. congruence. }
  destruct Hend as [[Hres _] | (_ & [e He] & _)]; [|congruence].
  rewrite Hok in Hres. rewrite attempt_once_run in Hstate.
  cbn [snd] in Hstate. rewrite log_event_extend, extend_extend in Hstate.
  destruct (download _ _ _ _ _ _ _ _). cbn [fst snd] in *. congruence.
Qed.

Lemma download_stops_at_first_success_witness :
  download world_flaky URL 15 3 default_backoff None false no_files
  = (Ret body_a1,
     extend no_files
       (failed_attempts URL 15 default_backoff (make_ctx false None)
          (attempts_from 1 2)
        ++ [EvUrlopen URL 15 (make_ctx false None)])).
Proof.
  apply (download_stops_at_first_success world_flaky URL 15 3 default_backoff
           None false no_files 2 body_a1).
  - reflexivity.
  - vm_compute. lia.
  - apply world_of_pauses.
  - intros [|[|j]] Hj; [by eexists | by eexists | lia].
  - reflexivity.
Defined.


(** X3. A body that [download] returns was read from a response with
    status 200 (or without a status attribute), and that response answered
    the last request of the call: the body of any other response is never
    returned. *)
Theorem download_returns_body_of_200
    w url timeout retries backoff cafile insecure s body s' :
  download w url timeout retries backoff cafile insecure s = (Ret body, s') ->
  exists s_last resp,
    s' = log_event (EvUrlopen url timeout (make_ctx insecure cafile)) s_last /\
    w_urlopen w (st_trace s_last) url timeout (make_ctx insecure cafile)
      = Opened resp /\
    default 200 (resp_status resp) = 200 /\
    resp_read resp = inl body.
Proof.
  intros Hdl.
  destruct (context_error w insecure cafile) as [e|] eqn:Hctx;
    [by rewrite (download_no_context _ _ _ _ _ _ _ _ e) in Hdl|].
  destruct (Z_le_gt_dec 1 retries) as [Hpos|Hneg];
    [|by rewrite download_no_attempt in Hdl by (done || lia)].
  destruct (download_run_pauses w url timeout retries backoff cafile insecure
              s Hpos Hctx) as (m & _ & Hstate & _ & Hend).
  cbn zeta in *. rewrite Hdl in Hstate, Hend. cbn [fst snd] in Hstate, Hend.
  destruct Hend as [[Hres _] | (_ & _ & e' & _ & ?)]; [|done].
  rewrite attempt_once_run in Hstate, Hres. cbn [fst snd] in Hstate, Hres.
  set (s_last := extend s _) in *. exists s_last.
  unfold attempt_result in Hres.
  destruct (w_urlopen w _ url timeout _) as [resp|e] eqn:Hopened; [|done].
  exists resp. split; [done|]. split; [reflexivity|].
  destruct (Z.eqb_spec (default 200 (resp_status resp)) 200); [|done].
  destruct (resp_read resp); by simplify_eq.
Qed.

Lemma download_returns_body_of_200_witness :
  exists s_last resp,
    log_event (EvUrlopen URL 15 None) no_files
      = log_event (EvUrlopen URL 15 (make_ctx false None)) s_last /\
    w_urlopen world_up (st_trace s_last) URL 15 (make_ctx false None)
      = Opened resp /\
    default 200 (resp_status resp) = 200 /\
    resp_read resp = inl body_a1.
Proof.
  apply (download_returns_body_of_200 world_up URL 15 3 default_backoff None
           false no_files body_a1).
  reflexivity.
Defined.

(** X4. When the loop runs undisturbed (a positive retry count, the
    context built, every pause slept), [download] raises only when it has
    used up its retries: if the call ends in an exception, exactly
    [retries] attempts were made, every one of them failed, and the
    exception is the one of the last attempt. *)
Theorem download_raises_after_all_retries
    w url timeout retries backoff cafile insecure s e s' :
  1 <= retries ->
  context_error w insecure cafile = None ->
  pauses_accepted w backoff (Z.to_nat retries - 1) ->
  download w url timeout retries backoff cafile insecure s = (Exc e, s') ->
  let ctx := make_ctx insecure cafile in
  let before j :=
    extend s (failed_attempts url timeout backoff ctx (attempts_from 1 j)) in
  count_attempts (st_trace s')
    = (count_attempts (st_trace s) + Z.to_nat retries)%nat /\
  attempt_once w url timeout ctx (before (Z.to_nat retries - 1)%nat)
    = (Exc e, s') /\
  forall j, (j < Z.to_nat retries)%nat ->
    exists e_j, (attempt_once w url timeout ctx (before j)).1 = Exc e_j.
Proof.
  intros Hpos Hctx Hpauses Hdl ctx before. subst ctx before.
  destruct (download_run w url timeout retries backoff cafile insecure s Hpos
              Hctx Hpauses)
    as (m & Hm & Hrun & Hlast & Hfail).
  rewrite Hrun in Hdl.
  assert (Hm' : S m = Z.to_nat retries) by (apply (Hlast e); by rewrite Hdl).
  replace (Z.to_nat retries - 1)%nat with m by lia.
  split; [|split; [exact Hdl|]].
  - rewrite attempt_once_run in Hdl. injection Hdl as _ <-.
    cbn [log_event st_trace extend].
    rewrite !count_attempts_app, count_failed_attempts, attempts_from_length,
      count_attempts_singleton. cbn. lia.
  - intros j Hj. destruct (decide (j = m)) as [->|Hne].
    + exists e. by rewrite Hdl.
    + apply Hfail. lia.
Qed.

Lemma download_raises_after_all_retries_witness :
  count_attempts
    (st_trace (download world_down URL 15 3 default_backoff None false
                        no_files).2)
  = (count_attempts (st_trace no_files) + Z.to_nat 3)%nat.
Proof.
  destruct (download_raises_after_all_retries world_down URL 15 3
              default_backoff None false no_files
              (URLError (RObj "timed out"))
              (download world_down URL 15 3 default_backoff None false
                        no_files).2)
    as [Hcount _].
  - lia.
  - reflexivity.
  - apply world_of_pauses.
  - reflexivity.
  - exact Hcount.
Defined.

(** A pause that [time.sleep] refuses ends the call: with a negative
    back-off, a server that is down is tried once, and the ValueError of
    the sleep is what [download] raises. *)
Example negative_backoff_stops_the_loop :
  download world_down URL 15 3 (-1) None false no_files
  = (Exc (PyError ValueError "sleep length must be non-negative"),
     log_event (EvUrlopen URL 15 None) no_files).
Proof. reflexivity. Qed.

(** * Further properties of [main] *)

Section MainShape.

Variable w : World.

(** Closes a goal that asks for the closing lines of a failed run. *)
Ltac close_report :=
  first [ left; eexists; split; [reflexivity | discriminate]
        | right; do 2 eexists; reflexivity ].

(** The events of one [download], with the bound on its attempts. *)
Lemma download_events url timeout retries backoff cafile insecure s :
  exists added,
    (download w url timeout retries backoff cafile insecure s).2
    = extend s added /\
    (count_attempts added <= Z.to_nat retries)%nat /\
    Forall (fun ev => match ev with
                      | EvUrlopen u t c =>
                          u = url /\ t = timeout /\
                          c = make_ctx insecure cafile
                      | EvSleep _ => True
                      | _ => False
                      end) added.
Proof.
  destruct (download_trace w url timeout retries backoff cafile insecure s)
    as (added & Hrun & Hshape).
  exists added. split; [done|]. split; [|done].
  destruct (download_added w url timeout retries backoff cafile insecure s)
    as [Hs | (_ & _ & m & Hm & Hs)]; cbn zeta in Hs; rewrite Hs in Hrun.
  - rewrite <- (extend_nil s) in Hrun at 1.
    unfold extend in Hrun. injection Hrun as Hadded.
    apply app_inv_head in Hadded. subst added. cbn. lia.
  - unfold extend in Hrun. injection Hrun as Hadded.
    apply app_inv_head in Hadded. subst added.
    rewrite count_attempts_app, count_failed_attempts, attempts_from_length,
      count_attempts_singleton. cbn. lia.
Qed.

(** What [main] does once the bytes are there. *)
Lemma main_persist args s raw s1 :
  destination_blocked args s = false ->
  fetch w args s = (Ret raw, s1) ->
  let run := main w args s in
  exists tail,
    st_trace run.2 = st_trace s1 ++ tail /\
    reports (args_output args) run.1 tail /\
    (forall path, path <> args_output args ->
                  st_fs run.2 !! path = st_fs s1 !! path) /\
    (exit_status run.1 = 3 -> st_fs run.2 = st_fs s1) /\
    exit_status run.1 <> 1 /\ exit_status run.1 <> 2.
Proof.
  intros Hfree Hfetch. cbn zeta. rewrite main_run, Hfree, Hfetch.
  pose proof (loads_utf8_run w raw s1) as Hloads.
  destruct (parse_bytes w raw) as [parsed|].
  - rewrite Hloads. unfold write_json.
    destruct (st_fs s1 !! args_output args) as [[old|]|] eqn:Hold;
      try (eexists; cbn; repeat split; try close_report; done);
      (destruct (w_open_refused w (args_output args)) as [e|];
       [eexists; cbn; repeat split; try close_report; done|]);
      (destruct (w_write_error w (args_output args) (dump_text w parsed))
         as [e|];
       [|destruct (PyJson.utf8_encode (dump_text w parsed)) as [content|]];
       eexists; cbn [fst snd log_event st_trace st_fs exit_status reports];
       (split; [reflexivity|]);
       (split; [first [reflexivity | split; [done | close_report]]|]);
       (split; [intros path Hpath; by rewrite lookup_insert_ne|]);
       repeat split; intros; done).
  - destruct Hloads as [e ->].
    eexists; cbn; repeat split; try close_report; done.
Qed.

(** The shape of every run: what happens while fetching, then the closing
    lines. *)
Lemma main_shape args s :
  let run := main w args s in
  exists net tail,
    st_trace run.2 = st_trace s ++ net ++ tail /\
    Forall (during_fetch w args) net /\
    (count_attempts net <= attempts_allowed args)%nat /\
    reports (args_output args) run.1 tail /\
    (forall path, path <> args_output args ->
                  st_fs run.2 !! path = st_fs s !! path) /\
    (exit_status run.1 = 1 \/ exit_status run.1 = 2 \/ exit_status run.1 = 3 ->
     st_fs run.2 = st_fs s) /\
    (w_certifi w = None ->
     (count_attempts net <= Z.to_nat (args_retries args))%nat).
Proof.
  cbn zeta.
  assert (Hone : forall n, (n <= Z.to_nat (args_retries args))%nat ->
                           (n <= attempts_allowed args)%nat).
  { intros n Hn. unfold attempts_allowed. destruct (_ || _); lia. }
  destruct (destination_blocked args s) eqn:Hblocked.
  { rewrite main_run, Hblocked.
    exists [], [EvStderr (MsgExists (args_output args))]. cbn.
    repeat split; try close_report; eauto; lia. }
  pose proof (fetch_run w args s) as Hfetch.
  destruct (download_events URL default_timeout (args_retries args)
              default_backoff (args_cafile args) (args_insecure args) s)
    as (net1 & Hs1 & Hcount1 & Hshape1).
  fold (primary_download w args) in Hs1.
  assert (Hnet1 : Forall (during_fetch w args) net1).
  { eapply Forall_impl; [exact Hshape1|].
    intros [u t c| | |]; cbn; [|done..]. intros (-> & -> & ->). eauto. }
  destruct (primary_download w args s) as [[raw|e|c] s1] eqn:Hprimary;
    cbn [snd] in Hs1; subst s1.
  - (* the first fetch delivers *)
    destruct (main_persist args s raw _ Hblocked Hfetch)
      as (tail & Htrace & Hreports & Hframe & Hthree & Hone' & Htwo).
    exists net1, tail. cbn zeta in *.
    split; [rewrite Htrace; cbn [extend st_trace]; by rewrite <- app_assoc|].
    split; [done|]. split; [by apply Hone|]. split; [done|].
    split; [done|]. split; [|done].
    intros [H | [H | H]]; [done | done | by apply Hthree].
  - destruct (fallback_eligible args e) eqn:Heligible.
    + destruct (w_certifi w) as [bundle|] eqn:Hcertifi.
      * (* the fallback runs *)
        destruct (download_events URL default_timeout (args_retries args)
                    default_backoff (Some bundle) false
                    (log_event (EvStderr MsgRetryCertifi) (extend s net1)))
          as (net2 & Hs2 & Hcount2 & Hshape2).
        fold (fallback_download w args bundle) in Hs2.
        unfold fallback_eligible in Heligible.
        apply andb_prop in Heligible as [Heligible Hcafile].
        apply andb_prop in Heligible as [_ Hinsecure].
        apply negb_true_iff in Hcafile, Hinsecure.
        assert (Hnet : Forall (during_fetch w args)
                         (net1 ++ [EvStderr MsgRetryCertifi] ++ net2)).
        { apply Forall_app; split; [done|].
          apply Forall_cons; split; [by cbn; rewrite Hcertifi|].
          eapply Forall_impl; [exact Hshape2|].
          intros [u t c| | |]; cbn; [|done..]. intros (-> & -> & ->).
          split; [done|]. split; [done|]. right. eauto. }
        assert (Hcount : (count_attempts
                            (net1 ++ [EvStderr MsgRetryCertifi] ++ net2)
                          <= attempts_allowed args)%nat).
        { rewrite !count_attempts_app, count_attempts_singleton. cbn.
          unfold attempts_allowed. rewrite Hinsecure, Hcafile. cbn. lia. }
        destruct (fallback_download w args bundle _) as [[raw|e2|c] s2]
          eqn:Hfallback; cbn [snd] in Hs2; subst s2.
        -- destruct (main_persist args s raw _ Hblocked Hfetch)
             as (tail & Htrace & Hreports & Hframe & Hthree & Hone' & Htwo).
           exists (net1 ++ [EvStderr MsgRetryCertifi] ++ net2), tail.
           cbn zeta in *.
           split; [rewrite Htrace; cbn [extend log_event st_trace];
                   by rewrite <- !app_assoc|].
           split; [done|]. split; [done|]. split; [done|].
           split; [done|]. split; [|done].
           intros [H | [H | H]]; [done | done | by apply Hthree].
        -- rewrite main_run, Hblocked, Hfetch.
           exists (net1 ++ [EvStderr MsgRetryCertifi] ++ net2),
             [EvStderr (MsgFallbackFailed e2); EvStderr (MsgOriginalError e)].
           cbn. split; [by rewrite <- !app_assoc|].
           repeat split; try close_report; eauto; done.
        -- exfalso. eapply (download_no_exit w).
           unfold fallback_download in Hfallback. by rewrite Hfallback.
      * rewrite main_run, Hblocked, Hfetch.
        exists net1,
          [EvStderr (MsgFallbackFailed
                       (PyError ImportError "No module named 'certifi'"));
           EvStderr (MsgOriginalError e)].
        cbn. split; [by rewrite <- !app_assoc|].
        repeat split; try close_report; eauto.
    + rewrite main_run, Hblocked, Hfetch.
      exists net1, [EvStderr (MsgDownloadFailed URL e)].
      cbn. split; [by rewrite <- !app_assoc|].
      repeat split; try close_report; eauto.
  - exfalso. eapply (download_no_exit w).
    unfold primary_download in Hprimary. by rewrite Hprimary.
Qed.

End MainShape.

Lemma verifies_make_ctx cafile : verifies (make_ctx false cafile).
Proof. unfold make_ctx. by destruct (cafile_truthy cafile). Qed.

Lemma reports_no_request out r tail u t c :
  reports out r tail -> ~ In (EvUrlopen u t c) tail.
Proof.
  destruct r as [[]|e|code]; cbn; [intros -> | done |
    intros [_ [(m & -> & _) | (e2 & e & ->)]]]; cbn; intuition discriminate.
Qed.





(** X7. Every request of a run goes to [URL] with the timeout of 15
    seconds, and unless --insecure was given every request is made with a
    context that verifies the server's certificate and host name: the
    fallback changes the trust roots, never the verification. *)
Theorem main_requests_verified w args s :
  exists added,
    st_trace (main w args s).2 = st_trace s ++ added /\
    forall u t c, In (EvUrlopen u t c) added ->
      u = URL /\ t = default_timeout /\
      (args_insecure args = false -> verifies c).
Proof.
  destruct (main_shape w args s)
    as (net & tail & Htrace & Hnet & _ & Hreports & _).
  exists (net ++ tail). split; [done|].
  intros u t c Hin. apply in_app_or in Hin as [Hin | Hin].
  - rewrite Forall_forall in Hnet.
    apply list_elem_of_In, Hnet in Hin. unfold during_fetch in Hin.
    destruct Hin as (-> & -> & Hc). split; [done|]. split; [done|].
    intros Hsecure.
    destruct Hc as [-> | (_ & _ & bundle & _ & ->)];
      [rewrite Hsecure|]; apply verifies_make_ctx.
  - by destruct (reports_no_request _ _ _ u t c Hreports).
Qed.

(** X8. A run makes at most [retries] connection attempts when
    --insecure or a CA file was given or certifi is not installed, and at
    most twice as many otherwise. *)
Theorem main_attempts_bounded w args s :
  exists added,
    st_trace (main w args s).2 = st_trace s ++ added /\
    (count_attempts added <= attempts_allowed args)%nat /\
    (attempts_allowed args <= 2 * Z.to_nat (args_retries args))%nat /\
    (args_insecure args = true \/ cafile_truthy (args_cafile args) = true \/
     w_certifi w = None ->
     (count_attempts added <= Z.to_nat (args_retries args))%nat).
Proof.
  destruct (main_shape w args s)
    as (net & tail & Htrace & _ & Hcount & Hreports & _ & _ & Hnone).
  assert (Htail : count_attempts tail = 0%nat).
  { destruct (main w args s).1 as [[]|e|code]; cbn in Hreports;
      [subst tail | done
      | destruct Hreports as [_ [(m & -> & _) | (e2 & e' & ->)]]];
      reflexivity. }
  exists (net ++ tail). split; [done|].
  rewrite count_attempts_app, Htail, Nat.add_0_r. split; [done|].
  split; [unfold attempts_allowed; destruct (_ || _); lia|].
  intros [Hinsecure | [Hcafile | Hcertifi]].
  - unfold attempts_allowed in Hcount. rewrite Hinsecure in Hcount.
    cbn in Hcount. lia.
  - unfold attempts_allowed in Hcount. rewrite Hcafile, orb_true_r in Hcount.
    lia.
  - by apply Hnone.
Qed.


(** X10. Without certifi there is no fallback: the run never announces
    one and every request carries the context of the command line.  A
    failure that would have been eligible ends the run with status 2 and
    two lines, the import error and the original error. *)
Theorem main_without_certifi w args s :
  w_certifi w = None ->
  (exists added,
     st_trace (main w args s).2 = st_trace s ++ added /\
     fallback_runs added = 0%nat /\
     forall u t c, In (EvUrlopen u t c) added ->
                   c = make_ctx (args_insecure args) (args_cafile args)) /\
  (forall e s1,
     destination_blocked args s = false ->
     download w URL default_timeout (args_retries args) default_backoff
              (args_cafile args) (args_insecure args) s = (Exc e, s1) ->
     fallback_eligible args e = true ->
     main w args s
     = (SysExit 2,
        extend s1
          [EvStderr (MsgFallbackFailed
                       (PyError ImportError "No module named 'certifi'"));
           EvStderr (MsgOriginalError e)])).
Proof.
  intros Hnone. split.
  - destruct (main_shape w args s)
      as (net & tail & Htrace & Hnet & _ & Hreports & _).
    exists (net ++ tail). split; [done|]. split.
    + rewrite fallback_runs_app.
      assert (fallback_runs tail = 0%nat) as ->.
      { destruct (main w args s).1 as [[]|e|code]; cbn in Hreports;
          [subst tail | done
          | destruct Hreports as [_ [(m & -> & Hm) | (e2 & e' & ->)]]];
          [reflexivity | | reflexivity].
        rewrite fallback_runs_singleton. by destruct m. }
      rewrite Nat.add_0_r. clear -Hnet Hnone.
      induction Hnet as [|ev net Hev _ IH]; [done|].
      change (ev :: net) with ([ev] ++ net).
      rewrite fallback_runs_app, IH, fallback_runs_singleton.
      destruct ev as [| |[]|]; try done.
      destruct Hev as (_ & _ & [bundle Hbundle]). congruence.
    + rewrite Forall_forall in Hnet.
      intros u t c Hin. apply in_app_or in Hin as [Hin | Hin].
      * apply list_elem_of_In, Hnet in Hin. unfold during_fetch in Hin.
        destruct Hin as (_ & _ & [-> | (_ & _ & bundle & Hbundle & _)]);
          [done | congruence].
      * by destruct (reports_no_request _ _ _ u t c Hreports).
  - intros e s1 Hblocked Hprimary Heligible.
    rewrite main_run, Hblocked, fetch_run. unfold primary_download.
    rewrite Hprimary, Heligible, Hnone.
    by rewrite !log_event_extend, extend_extend.
Qed.

Lemma main_without_certifi_witness :
  exists added,
    st_trace (main world_unverified args_default no_files).2
    = st_trace no_files ++ added /\
    fallback_runs added = 0%nat /\
    forall u t c, In (EvUrlopen u t c) added ->
                  c = make_ctx (args_insecure args_default)
                        (args_cafile args_default).
Proof.
  apply (main_without_certifi world_unverified args_default no_files).
  reflexivity.
Defined.

(** X11. A run that ended well blocks the next one: started again without
    --force on the state it left, [main] exits with status 1 before any
    request, whatever the server would answer.  A run that ended with
    status 2 or 3 changes nothing in that respect: the destination is
    blocked afterwards exactly if it was before. *)
Theorem second_run_is_blocked w w' args s :
  let run := main w args s in
  (run.1 = Ret tt -> args_force args = false ->
   main w' args run.2
   = (SysExit 1,
      log_event (EvStderr (MsgExists (args_output args))) run.2)) /\
  (exit_status run.1 = 2 \/ exit_status run.1 = 3 ->
   destination_blocked args run.2 = destination_blocked args s).
Proof.
  cbn zeta. split.
  - intros Hok Hforce.
    destruct (main_success w args s Hok)
      as (raw & s1 & parsed & content & _ & _ & _ & Hfs).
    rewrite main_run. unfold destination_blocked.
    rewrite Hfs, lookup_insert_eq, Hforce.
    by rewrite bool_decide_eq_true_2.
  - intros Hstatus.
    destruct (main_shape w args s) as (net & tail & _ & _ & _ & _ & _ & Hfs & _).
    unfold destination_blocked. rewrite Hfs; [done | tauto].
Qed.

Lemma second_run_is_blocked_witness :
  main world_down args_default (main world_up args_default no_files).2
  = (SysExit 1,
     log_event (EvStderr (MsgExists (args_output args_default)))
       (main world_up args_default no_files).2).
Proof.
  apply (second_run_is_blocked world_up world_down args_default no_files);
    reflexivity.
Defined.

(** X12. The classification reads the reason phrase of an HTTP error: an
    HTTPError, whatever its status code, is classified as a verification
    failure as soon as its message contains one of the two indicators.
    This holds for the error [urlopen] raises and for the one line 45
    raises for a response whose status is not 200, so a server's reason
    phrase can make the fallback eligible. *)
Theorem http_reason_classified code msg resp url s :
  occurs_in "certificate verify failed" msg \/
  occurs_in "CERTIFICATE_VERIFY_FAILED" msg ->
  is_ssl_err (HTTPError code msg) = true /\
  (resp_status resp = Some code -> code <> 200 ->
   resp_reason resp = Some msg ->
   exists e, with_resp url resp s = (Exc e, s) /\ is_ssl_err e = true).
Proof.
  intros Hmsg.
  assert (Hnonempty : negb (String.eqb msg "") = true).
  { destruct (String.eqb_spec msg "") as [->|]; [|done].
    destruct Hmsg as [(before & after & H) | (before & after & H)];
      by destruct before. }
  assert (Hclass : is_ssl_err (HTTPError code msg) = true).
  { unfold is_ssl_err. cbn [isinstance_SSLError isinstance_URLError
      getattr_reason reason_truthy str_reason andb].
    rewrite Hnonempty.
    destruct Hmsg as [H | H]; apply str_in_occurs in H; rewrite H;
      by rewrite ?orb_true_r. }
  split; [exact Hclass|].
  intros Hstatus Hcode Hreason. exists (HTTPError code msg).
  split; [|exact Hclass].
  unfold with_resp. rewrite Hstatus, Hreason. cbn [default from_option id].
  by destruct (Z.eqb_spec code 200).
Qed.

Lemma http_reason_classified_witness :
  is_ssl_err (HTTPError 503 "upstream: certificate verify failed") = true.
Proof.
  apply (http_reason_classified 503 "upstream: certificate verify failed"
           response_204 URL no_files).
  left. by exists "upstream: ", "".
Defined.

(** * The saved file read back *)

Section JsonRoundTrip.

Import PyJson.

(** ** The scanner on the text that [json.dumps] writes *)

Lemma lex_silent st c st' rest :
  lex_step st c = Some (st', []) -> lex st (c :: rest) = lex st' rest.
Proof. intros H. cbn [lex]. rewrite H. cbn. by destruct (lex st' rest). Qed.

Lemma lex_emit st c st' t rest toks :
  lex_step st c = Some (st', [t]) -> lex st' rest = Some toks ->
  lex st (c :: rest) = Some (t :: toks).
Proof. intros H Hrest. cbn [lex]. rewrite H. cbn. by rewrite Hrest. Qed.

Lemma lex_spaces n rest :
  lex LStart (repeat 32%N n ++ rest) = lex LStart rest.
Proof.
  induction n as [|n IH]; [done|]. cbn [repeat app].
  by rewrite (lex_silent LStart 32%N LStart).
Qed.

Lemma lex_newline_indent level rest :
  lex LStart (newline_indent level ++ rest) = lex LStart rest.
Proof.
  unfold newline_indent. cbn [app].
  rewrite (lex_silent LStart 10%N LStart) by done. apply lex_spaces.
Qed.

(** Strings. *)

Lemma lex_plain_char c acc more :
  (32 <= c)%N -> c <> 34%N -> c <> 92%N ->
  lex (LStr acc) (c :: more) = lex (LStr (c :: acc)) more.
Proof.
  intros Hc Hq Hb. apply lex_silent. cbn [lex_step]. unfold lex_str.
  destruct (N.eqb_spec c 34); [done|]. destruct (N.eqb_spec c 92); [done|].
  by destruct (N.ltb_spec c 32); [lia|].
Qed.

(** Runs the scanner over the escape sequence of a given character. *)
Ltac escape_steps :=
  match goal with
  | |- lex _ (escape_char ?c ++ _) = _ =>
      let l := eval vm_compute in (escape_char c) in
      change (escape_char c) with l; cbn [app];
      repeat (erewrite lex_silent by reflexivity); reflexivity
  end.

Lemma lex_escape_char c acc more :
  lex (LStr acc) (escape_char c ++ more) = lex (LStr (c :: acc)) more.
Proof.
  destruct (N.ltb_spec c 32) as [Hlow|Hhigh].
  - destruct c as [|p]; [|do 5 (try destruct p as [p|p|]); try lia];
      escape_steps.
  - destruct (N.eq_dec c 34%N) as [->|Hq]; [escape_steps|].
    destruct (N.eq_dec c 92%N) as [->|Hb]; [escape_steps|].
    rewrite escape_char_literal by done. by apply lex_plain_char.
Qed.

Lemma lex_string_body s : forall acc rest toks,
  lex LStart rest = Some toks ->
  lex (LStr acc) (flat_map escape_char s ++ 34%N :: rest)
  = Some (TStr (rev acc ++ s) :: toks).
Proof.
  induction s as [|c s IH]; intros acc rest toks Hrest.
  - cbn [flat_map app]. rewrite app_nil_r.
    by apply (lex_emit (LStr acc) 34%N LStart).
  - cbn [flat_map]. rewrite <- app_assoc, lex_escape_char.
    rewrite (IH (c :: acc) rest toks Hrest). cbn [rev].
    by rewrite <- app_assoc.
Qed.

Lemma lex_string s rest toks :
  lex LStart rest = Some toks ->
  lex LStart (encode_basestring s ++ rest) = Some (TStr s :: toks).
Proof.
  intros Hrest. unfold encode_basestring. cbn [app].
  rewrite (lex_silent LStart 34%N (LStr [])) by done.
  rewrite <- app_assoc. cbn [app].
  by rewrite (lex_string_body s [] rest toks Hrest).
Qed.

(** Integers. *)

Lemma read_uint_acc d : forall acc,
  Z.pos (Pos.of_uint_acc d acc) = read_uint d (Z.pos acc).
Proof.
  induction d; intros acc; cbn [Pos.of_uint_acc read_uint];
    rewrite ?IHd; try reflexivity; f_equal; lia.
Qed.

Lemma read_uint_of_uint d : Z.of_N (Pos.of_uint d) = read_uint d 0.
Proof.
  induction d; cbn [Pos.of_uint read_uint]; try done;
    cbn [Z.of_N]; by rewrite read_uint_acc.
Qed.

Lemma read_uint_to_uint p : read_uint (Pos.to_uint p) 0 = Z.pos p.
Proof.
  rewrite <- read_uint_of_uint, DecimalPos.Unsigned.of_to. reflexivity.
Qed.

Lemma nzhead_no_zero d : forall l, Decimal.nzhead d <> Decimal.D0 l.
Proof. induction d; intros l'; cbn; first [done | apply IHd]. Qed.

(** The decimal digits of a positive number start with a digit that is
    not zero. *)
Lemma to_uint_head p :
  match Pos.to_uint p with
  | Decimal.Nil | Decimal.D0 _ => False
  | _ => True
  end.
Proof.
  pose proof (DecimalPos.Unsigned.to_of (Pos.to_uint p)) as Hnorm.
  rewrite DecimalPos.Unsigned.of_to in Hnorm. cbn [N.to_uint] in Hnorm.
  pose proof (DecimalPos.Unsigned.to_uint_nonzero p) as Hnz.
  pose proof (DecimalPos.Unsigned.to_uint_nonnil p) as Hnn.
  pose proof (nzhead_no_zero (Pos.to_uint p)) as Hhead.
  unfold Decimal.unorm in Hnorm.
  destruct (Pos.to_uint p) eqn:E; try done.
  destruct (Decimal.nzhead (Decimal.D0 u)) eqn:E'; try done;
    rewrite <- Hnorm in Hhead; by destruct (Hhead u).
Qed.

Lemma lex_digits d : forall neg m lexeme tail,
  exists lexeme',
    lex (LInt neg m lexeme) (digits d ++ tail)
    = lex (LInt neg (read_uint d m) lexeme') tail.
Proof.
  induction d; intros neg m lexeme tail; [by exists lexeme|..];
    match goal with
    | |- context [digits (?D d)] =>
        let c := eval vm_compute in (hd 0%N (digits (D Decimal.Nil))) in
        change (digits (D d)) with (c :: digits d);
        edestruct (IHd neg) as [lexeme' IH]; exists lexeme';
        cbn [app]; erewrite lex_silent by reflexivity; exact IH
    end.
Qed.

Lemma lex_value_end st tok tail toks :
  ends_value tail -> lex LStart tail = Some toks ->
  lex_finish st = Some [tok] ->
  (forall c, c = 10%N \/ c = 44%N -> lex_step st c = emit_then tok c) ->
  lex st tail = Some (tok :: toks).
Proof.
  intros Hends Htail Hfinish Hstep. destruct tail as [|c rest].
  - cbn in Htail |- *. by simplify_eq.
  - cbn [lex] in Htail |- *. rewrite (Hstep c Hends). unfold emit_then.
    cbn [lex_step] in Htail.
    destruct (lex_start c) as [[st' ts]|]; [|done]. cbn in Htail |- *.
    destruct (lex st' rest) as [more|]; [|done]. cbn in Htail |- *.
    by simplify_eq.
Qed.

Lemma lex_int_end neg m lexeme tail toks :
  ends_value tail -> lex LStart tail = Some toks ->
  lex (LInt neg m lexeme) tail = Some (TScalar (JInt (signed neg m)) :: toks).
Proof.
  intros Hends Htail. apply lex_value_end; [done..|].
  by intros c [-> | ->].
Qed.

Lemma lex_zero_end neg tail toks :
  ends_value tail -> lex LStart tail = Some toks ->
  lex (LZero neg) tail = Some (TScalar (JInt 0) :: toks).
Proof.
  intros Hends Htail. apply lex_value_end; [done..|].
  by intros c [-> | ->].
Qed.

Lemma repr_int_pos p : repr_int (Z.pos p) = digits (Pos.to_uint p).
Proof.
  unfold repr_int, str_of_Z, digits. cbn [Z.to_int NilZero.string_of_int].
  pose proof (to_uint_head p). by destruct (Pos.to_uint p).
Qed.

Lemma repr_int_neg p : repr_int (Z.neg p) = 45%N :: digits (Pos.to_uint p).
Proof.
  unfold repr_int, str_of_Z, digits. cbn [Z.to_int NilZero.string_of_int].
  pose proof (to_uint_head p). by destruct (Pos.to_uint p).
Qed.

Lemma lex_uint p st neg tail toks :
  (st = LStart /\ neg = false \/ st = LMinus /\ neg = true) ->
  ends_value tail -> lex LStart tail = Some toks ->
  lex st (digits (Pos.to_uint p) ++ tail)
  = Some (TScalar (JInt (signed neg (Z.pos p))) :: toks).
Proof.
  intros Hst Hends Htail.
  rewrite <- (read_uint_to_uint p). pose proof (to_uint_head p) as Hhead.
  destruct (Pos.to_uint p) as [|d|d|d|d|d|d|d|d|d|d] eqn:E; try done;
    match goal with
    | |- context [digits (?D d)] =>
        let c := eval vm_compute in (hd 0%N (digits (D Decimal.Nil))) in
        change (digits (D d)) with (c :: digits d)
    end;
    cbn [app read_uint];
    (destruct Hst as [[-> ->] | [-> ->]];
     erewrite lex_silent by reflexivity;
     match goal with
     | |- lex (LInt ?neg ?m ?lexeme) (_ ++ ?tail) = _ =>
         destruct (lex_digits d neg m lexeme tail) as [lexeme' ->]
     end;
     by apply lex_int_end).
Qed.

Lemma lex_repr_int z tail toks :
  ends_value tail -> lex LStart tail = Some toks ->
  lex LStart (repr_int z ++ tail) = Some (TScalar (JInt z) :: toks).
Proof.
  intros Hends Htail. destruct z as [|p|p].
  - change (repr_int 0) with [48%N]. cbn [app].
    rewrite (lex_silent LStart 48%N (LZero false)) by done.
    by apply lex_zero_end.
  - rewrite repr_int_pos. apply (lex_uint p LStart false); auto.
  - rewrite repr_int_neg. cbn [app].
    rewrite (lex_silent LStart 45%N LMinus) by done.
    apply (lex_uint p LMinus true); auto.
Qed.

(** The whole text. *)

Lemma join_cons sep x y ys :
  join sep (x :: y :: ys) = x ++ sep ++ join sep (y :: ys).
Proof. reflexivity. Qed.

Lemma ends_value_newline level rest :
  ends_value (newline_indent level ++ rest).
Proof. by left. Qed.

Lemma ends_value_comma rest : ends_value (44%N :: rest).
Proof. by right. Qed.

(** The items of a list or of an object, written one per line. *)
Lemma lex_joined {A} (enc : A -> pystr) (toks_of : A -> list token)
    level xs :
  Forall (fun x => forall tail toks,
            ends_value tail -> lex LStart tail = Some toks ->
            lex LStart (enc x ++ tail) = Some (toks_of x ++ toks)) xs ->
  forall x rest toks,
    (forall tail toks,
       ends_value tail -> lex LStart tail = Some toks ->
       lex LStart (enc x ++ tail) = Some (toks_of x ++ toks)) ->
    ends_value rest -> lex LStart rest = Some toks ->
    lex LStart (join (44%N :: newline_indent level) (map enc (x :: xs)) ++ rest)
    = Some (toks_of x ++ flat_map (fun y => TComma :: toks_of y) xs ++ toks).
Proof.
  induction 1 as [|y ys Hy _ IH]; intros x rest toks Hx Hends Hrest.
  - cbn [map join flat_map app]. by apply Hx.
  - cbn [map]. rewrite join_cons, <- !app_assoc. cbn [flat_map].
    apply Hx; [apply ends_value_comma|]. cbn [app].
    apply (lex_emit LStart 44%N LStart); [done|].
    rewrite lex_newline_indent. rewrite <- app_assoc.
    by apply (IH y rest toks).
Qed.

(** Scans a literal name, one character at a time. *)
Ltac scan_literal :=
  cbn [app]; repeat (erewrite lex_silent by reflexivity);
  eapply lex_emit; [reflexivity | eassumption].

Lemma lex_encode float_repr v : forall level tail toks,
  no_float_literal v = true ->
  ends_value tail -> lex LStart tail = Some toks ->
  lex LStart (encode float_repr level v ++ tail) = Some (tokens v ++ toks).
Proof.
  induction v as [|b|z|f|s|items IH|pairs IH] using json_induction;
    intros level tail toks Hnf Hends Htail.
  - change (encode float_repr level JNull) with (cps "null").
    vm_compute cps. scan_literal.
  - destruct b.
    + change (encode float_repr level (JBool true)) with (cps "true").
      vm_compute cps. scan_literal.
    + change (encode float_repr level (JBool false)) with (cps "false").
      vm_compute cps. scan_literal.
  - by apply lex_repr_int.
  - destruct f as [| | |lexeme]; [..|done];
      cbn [encode floatstr]; vm_compute cps; scan_literal.
  - by apply lex_string.
  - destruct items as [|x xs].
    + change (encode float_repr level (JList [])) with (cps "[]").
      vm_compute cps. cbn [app tokens].
      apply (lex_emit LStart 91%N LStart); [done|].
      by apply (lex_emit LStart 93%N LStart).
    + cbn [encode tokens]. rewrite <- !app_assoc. cbn [app].
      apply (lex_emit LStart 91%N LStart); [done|].
      rewrite lex_newline_indent.
      cbn [no_float_literal forallb] in Hnf.
      apply andb_prop in Hnf as [Hx Hxs].
      apply Forall_cons in IH as [IHx IHxs].
      apply (lex_joined (encode float_repr (S level)) tokens (S level) xs).
      * rewrite forallb_forall in Hxs. rewrite Forall_forall in IHxs |- *.
        intros y Hy tail' toks' Hends' Htail'.
        apply IHxs; [done| |done..]. by apply Hxs, list_elem_of_In.
      * intros tail' toks'. by apply IHx.
      * apply ends_value_newline.
      * rewrite lex_newline_indent.
        by apply (lex_emit LStart 93%N LStart).
  - destruct pairs as [|kv pairs].
    + change (encode float_repr level (JDict [])) with (cps "{}").
      vm_compute cps. cbn [app tokens].
      apply (lex_emit LStart 123%N LStart); [done|].
      by apply (lex_emit LStart 125%N LStart).
    + cbn [encode tokens]. rewrite <- !app_assoc. cbn [app].
      apply (lex_emit LStart 123%N LStart); [done|].
      rewrite lex_newline_indent.
      cbn [no_float_literal forallb] in Hnf.
      apply andb_prop in Hnf as [Hx Hxs].
      apply Forall_cons in IH as [IHx IHxs].
      assert (Hpair : forall kv' : pystr * json,
                no_float_literal (snd kv') = true ->
                (forall level tail toks,
                   no_float_literal (snd kv') = true ->
                   ends_value tail -> lex LStart tail = Some toks ->
                   lex LStart (encode float_repr level (snd kv') ++ tail)
                   = Some (tokens (snd kv') ++ toks)) ->
                forall tail' toks',
                  ends_value tail' -> lex LStart tail' = Some toks' ->
                  lex LStart ((encode_basestring (fst kv') ++ [58; 32]%N
                               ++ encode float_repr (S level) (snd kv'))
                              ++ tail')
                  = Some ((TStr (fst kv') :: TColon :: tokens (snd kv'))
                          ++ toks')).
      { intros kv' Hnf' IH' tail' toks' Hends' Htail'.
        rewrite <- !app_assoc. cbn [app].
        apply lex_string.
        apply (lex_emit LStart 58%N LStart); [done|].
        rewrite (lex_silent LStart 32%N LStart) by done.
        by apply IH'. }
      apply (lex_joined
               (fun kv => encode_basestring (fst kv) ++ [58; 32]%N
                          ++ encode float_repr (S level) (snd kv))
               (fun kv => TStr (fst kv) :: TColon :: tokens (snd kv))
               (S level) pairs).
      * rewrite forallb_forall in Hxs. rewrite Forall_forall in IHxs |- *.
        intros y Hy. apply Hpair; [|by apply IHxs].
        by apply Hxs, list_elem_of_In.
      * by apply Hpair.
      * apply ends_value_newline.
      * rewrite lex_newline_indent.
        by apply (lex_emit LStart 125%N LStart).
Qed.

(** ** The parser on the tokens of a value *)

Section ParseFacts.

Variables (max_digits : N) (max_nesting : nat).

Lemma parse_cons st t st' rest :
  parse_step max_nesting st t = Some st' ->
  parse max_nesting st (t :: rest) = parse max_nesting st' rest.
Proof. intros H. cbn [parse]. by rewrite H. Qed.

(** Opening a container below the limit. *)
Lemma parse_open stk t st' rest :
  (length stk < max_nesting)%nat ->
  (t = TLBracket /\ st' = PListFirst stk \/
   t = TLBrace /\ st' = PDictFirst stk) ->
  parse max_nesting (PValue stk) (t :: rest) = parse max_nesting st' rest.
Proof.
  intros Hdepth Ht. apply parse_cons. cbn [parse_step].
  destruct Ht as [[-> ->] | [-> ->]]; cbn [parse_value];
    by rewrite (proj2 (Nat.ltb_lt _ _) Hdepth).
Qed.

Lemma parse_first_item x stk rest :
  parse max_nesting (PListFirst stk) (tokens x ++ rest)
  = parse max_nesting (PValue (FList [] :: stk)) (tokens x ++ rest).
Proof. by destruct x as [| | | | |[|]|[|]]. Qed.

Lemma dict_set_fresh d key v :
  key ∉ map fst d -> dict_set d key v = d ++ [(key, v)].
Proof.
  induction d as [|[k x] d IH]; intros Hfresh; [done|].
  cbn [dict_set app]. cbn [map fst] in Hfresh.
  apply not_elem_of_cons in Hfresh as [Hne Hfresh].
  unfold pystr_eqb. rewrite bool_decide_eq_false_2 by done.
  by rewrite IH.
Qed.

Lemma loadable_list n items :
  loadable max_digits (S n) (JList items)
  <-> Forall (loadable max_digits n) items.
Proof.
  cbn [loadable]. induction items as [|x xs IH]; cbn [foldr].
  - split; [constructor | done].
  - rewrite Forall_cons. tauto.
Qed.

Lemma loadable_dict n d :
  loadable max_digits (S n) (JDict d)
  <-> NoDup (map fst d) /\
      Forall (fun kv => loadable max_digits n (snd kv)) d.
Proof.
  cbn [loadable].
  assert (foldr (fun kv rest => loadable max_digits n (snd kv) /\ rest) True d
          <-> Forall (fun kv => loadable max_digits n (snd kv)) d) as ->;
    [|done].
  induction d as [|x xs IH]; cbn [foldr].
  - split; [constructor | done].
  - rewrite Forall_cons. tauto.
Qed.

Section ParseTokens.

(** The tokens of a value that fits under the open containers parse to
    it. *)
Let parses (v : json) : Prop :=
  forall n stk rest,
    (length stk + n = max_nesting)%nat ->
    loadable max_digits n v ->
    parse max_nesting (PValue stk) (tokens v ++ rest)
    = parse max_nesting (plug v stk) rest.

Lemma parse_items xs :
  Forall parses xs ->
  forall n acc stk rest,
    (length stk + S n = max_nesting)%nat ->
    Forall (loadable max_digits n) xs ->
    parse max_nesting (PListNext acc stk)
          (flat_map (fun y => TComma :: tokens y) xs ++ TRBracket :: rest)
    = parse max_nesting (plug (JList (rev acc ++ xs)) stk) rest.
Proof.
  induction 1 as [|y ys Hy _ IH]; intros n acc stk rest Hdepth Hload.
  - cbn [flat_map app]. rewrite app_nil_r. by apply parse_cons.
  - cbn [flat_map app]. apply Forall_cons in Hload as [Hly Hlys].
    rewrite (parse_cons _ TComma (PValue (FList acc :: stk))) by done.
    rewrite <- app_assoc, (Hy n) by (done || cbn; lia). cbn [plug].
    rewrite (IH n (y :: acc)) by done. cbn [rev].
    by rewrite <- app_assoc.
Qed.

Lemma parse_pairs pairs :
  Forall (fun kv => parses (snd kv)) pairs ->
  forall n d stk rest,
    (length stk + S n = max_nesting)%nat ->
    NoDup (map fst (d ++ pairs)) ->
    Forall (fun kv => loadable max_digits n (snd kv)) pairs ->
    parse max_nesting (PDictNext d stk)
          (flat_map (fun kv => TComma :: TStr (fst kv) :: TColon
                               :: tokens (snd kv)) pairs
           ++ TRBrace :: rest)
    = parse max_nesting (plug (JDict (d ++ pairs)) stk) rest.
Proof.
  induction 1 as [|[k v] pairs Hkv _ IH];
    intros n d stk rest Hdepth Hnodup Hload.
  - cbn [flat_map app]. rewrite app_nil_r. by apply parse_cons.
  - cbn [flat_map app fst snd] in *.
    apply Forall_cons in Hload as [Hlv Hlpairs]. cbn [snd] in Hlv.
    rewrite (parse_cons _ TComma (PDictKey d stk)) by done.
    rewrite (parse_cons _ (TStr k) (PColon d k stk)) by done.
    rewrite (parse_cons _ TColon (PValue (FDict d k :: stk))) by done.
    rewrite <- app_assoc, (Hkv n) by (done || cbn; lia). cbn [plug].
    rewrite dict_set_fresh.
    + replace (d ++ (k, v) :: pairs) with ((d ++ [(k, v)]) ++ pairs) in *
        by (by rewrite <- app_assoc).
      by apply (IH n).
    + rewrite map_app in Hnodup. apply NoDup_app in Hnodup as (_ & Hd & _).
      intros Hin. apply (Hd k Hin). cbn. left.
Qed.

Lemma parse_tokens v : parses v.
Proof.
  induction v as [|b|z|f|s|items IH|pairs IH] using json_induction;
    intros n stk rest Hdepth Hload; try reflexivity.
  - destruct n as [|n]; [done|].
    rewrite loadable_list in Hload.
    destruct items as [|x xs].
    + cbn [tokens app].
      rewrite (parse_open stk TLBracket (PListFirst stk)) by (lia || auto).
      by apply parse_cons.
    + apply Forall_cons in IH as [IHx IHxs].
      apply Forall_cons in Hload as [Hlx Hlxs].
      cbn [tokens]. rewrite <- !app_assoc. cbn [app].
      rewrite (parse_open stk TLBracket (PListFirst stk)) by (lia || auto).
      rewrite parse_first_item, (IHx n) by (done || cbn; lia). cbn [plug].
      by rewrite (parse_items xs IHxs n).
  - destruct n as [|n]; [done|].
    rewrite loadable_dict in Hload. destruct Hload as [Hnodup Hload].
    destruct pairs as [|[k v] pairs].
    + cbn [tokens app].
      rewrite (parse_open stk TLBrace (PDictFirst stk)) by (lia || auto).
      by apply parse_cons.
    + apply Forall_cons in IH as [IHx IHxs].
      apply Forall_cons in Hload as [Hlv Hlpairs].
      cbn [tokens fst snd] in *. rewrite <- !app_assoc. cbn [app].
      rewrite (parse_open stk TLBrace (PDictFirst stk)) by (lia || auto).
      rewrite (parse_cons _ (TStr k) (PColon [] k stk)) by done.
      rewrite (parse_cons _ TColon (PValue (FDict [] k :: stk))) by done.
      rewrite (IHx n) by (done || cbn; lia). cbn [plug dict_set].
      by rewrite (parse_pairs pairs IHxs n [(k, v)]).
Qed.

End ParseTokens.

(** ** What the parser builds is within the limits *)

Lemma dict_set_keys d key v k :
  k ∈ map fst (dict_set d key v) -> k = key \/ k ∈ map fst d.
Proof.
  induction d as [|[k' x] d IH]; cbn [dict_set map fst].
  - rewrite list_elem_of_singleton. tauto.
  - unfold pystr_eqb. case_bool_decide; cbn [map fst];
      rewrite !elem_of_cons; [tauto|].
    intros [-> | Hin]; [tauto|]. destruct (IH Hin); tauto.
Qed.

Lemma dict_set_wf n d key v :
  wf_frame max_digits n (FDict d key) -> loadable max_digits n v ->
  wf_frame max_digits n (FDict (dict_set d key v) key).
Proof.
  cbn [wf_frame]. intros [Hnodup Hall] Hv.
  induction d as [|[k x] d IH]; cbn [dict_set].
  - split; [apply NoDup_singleton | by constructor].
  - cbn [map fst] in Hnodup. apply NoDup_cons in Hnodup as [Hk Hnodup].
    apply Forall_cons in Hall as [Hx Hall].
    unfold pystr_eqb. case_bool_decide.
    + split; [by apply NoDup_cons | by constructor].
    + destruct (IH Hnodup Hall) as [IH1 IH2]. split; [|by constructor].
      cbn [map fst]. apply NoDup_cons. split; [|done].
      intros Hin. apply dict_set_keys in Hin as [-> | Hin]; done.
Qed.

Lemma plug_wf v stk :
  stack_ok max_digits max_nesting stk ->
  loadable max_digits (max_nesting - length stk) v ->
  wf_state max_digits max_nesting (plug v stk).
Proof.
  intros Hstk Hv. destruct stk as [|[items|d key] below].
  - cbn [plug wf_state]. by rewrite Nat.sub_0_r in Hv.
  - cbn [plug wf_state stack_ok length] in *.
    destruct Hstk as (Hdepth & Hitems & Hbelow).
    split; [done|]. split; [by constructor | done].
  - cbn [plug wf_state stack_ok length] in *.
    destruct Hstk as (Hdepth & Hd & Hbelow).
    split; [done|]. split; [|done].
    by apply (dict_set_wf _ d key v).
Qed.

Lemma parse_value_wf stk t st' :
  stack_ok max_digits max_nesting stk -> scalar_token max_digits t ->
  parse_value max_nesting stk t = Some st' ->
  wf_state max_digits max_nesting st'.
Proof.
  intros Hstk Ht. destruct t; cbn [parse_value]; try done.
  - destruct (Nat.ltb_spec (length stk) max_nesting); intros [= <-].
    cbn. by repeat constructor.
  - destruct (Nat.ltb_spec (length stk) max_nesting); intros [= <-].
    cbn. by repeat constructor.
  - intros [= <-]. apply plug_wf; [done | exact I].
  - intros [= <-]. apply plug_wf; [done | apply Ht].
Qed.

(** A container that closes fits where it was opened. *)
Lemma closed_fits f v stk :
  stack_ok max_digits max_nesting (f :: stk) ->
  loadable max_digits (S (max_nesting - S (length stk))) v ->
  wf_state max_digits max_nesting (plug v stk).
Proof.
  intros (Hdepth & _ & Hstk) Hv. apply plug_wf; [done|].
  by replace (max_nesting - length stk)%nat
    with (S (max_nesting - S (length stk))) by lia.
Qed.

Lemma parse_step_wf st t st' :
  wf_state max_digits max_nesting st -> scalar_token max_digits t ->
  parse_step max_nesting st t = Some st' ->
  wf_state max_digits max_nesting st'.
Proof.
  intros Hst Ht.
  destruct st as [stk|stk|items stk|stk|d stk|d key stk|d stk|v];
    cbn [parse_step wf_state] in *.
  - by apply parse_value_wf.
  - destruct t; try (by apply parse_value_wf).
    intros [= <-]. apply (closed_fits _ _ _ Hst), loadable_list. constructor.
  - destruct t; intros [= <-]; [|done].
    apply (closed_fits _ _ _ Hst), loadable_list, Forall_rev.
    by destruct Hst as (_ & ? & _).
  - destruct t; intros [= <-]; [|done].
    apply (closed_fits _ _ _ Hst), loadable_dict. by destruct Hst as (_ & ? & _).
  - by destruct t; intros [= <-].
  - by destruct t; intros [= <-].
  - destruct t; intros [= <-]; [|done].
    apply (closed_fits _ _ _ Hst), loadable_dict. by destruct Hst as (_ & ? & _).
  - done.
Qed.

Lemma parse_wf toks : forall st v,
  wf_state max_digits max_nesting st ->
  Forall (scalar_token max_digits) toks ->
  parse max_nesting st toks = Some v -> loadable max_digits max_nesting v.
Proof.
  induction toks as [|t toks IH]; intros st v Hst Htoks; cbn [parse].
  - destruct st; intros [= <-]. exact Hst.
  - apply Forall_cons in Htoks as [Ht Htoks].
    destruct (parse_step max_nesting st t) as [st'|] eqn:Hstep; [|done].
    cbn. apply IH; [|done]. by eapply parse_step_wf.
Qed.

(** The scanner emits scalars only. *)
Lemma lex_start_plain c st' ts :
  lex_start c = Some (st', ts) -> lex_wf st' /\ Forall plain_token ts.
Proof.
  unfold lex_start. repeat case_match; intros [= <- <-];
    by repeat constructor.
Qed.

Lemma emit_then_plain tok c st' ts :
  plain_token tok ->
  emit_then tok c = Some (st', ts) -> lex_wf st' /\ Forall plain_token ts.
Proof.
  intros Htok. unfold emit_then.
  destruct (lex_start c) as [[st ts']|] eqn:Hstart; [|done].
  apply lex_start_plain in Hstart as [Hst Hts]. cbn. intros [= <- <-].
  split; [done | by constructor].
Qed.

Lemma lex_step_plain st c st' ts :
  lex_wf st -> lex_step st c = Some (st', ts) ->
  lex_wf st' /\ Forall plain_token ts.
Proof.
  intros Hst.
  destruct st; cbn [lex_step lex_wf] in *;
    try (by apply lex_start_plain);
    unfold lex_str, lex_esc, after_escape;
    try (destruct (hex_val c); [cbn|done]);
    repeat (case_match; simplify_option_eq);
    try (by apply emit_then_plain);
    intros; simplify_eq; by repeat constructor.
Qed.

Lemma lex_plain text : forall st toks,
  lex_wf st -> lex st text = Some toks -> Forall plain_token toks.
Proof.
  induction text as [|c text IH]; intros st toks Hst; cbn [lex].
  - destruct st; cbn; intros [= <-]; by repeat constructor.
  - destruct (lex_step st c) as [[st' ts]|] eqn:Hstep; [|done]. cbn.
    destruct (lex st' text) as [more|] eqn:Hmore; [|done]. cbn.
    intros [= <-]. apply lex_step_plain in Hstep as [Hst' Hts]; [|done].
    apply Forall_app. split; [done|]. by apply (IH st').
Qed.

(** A scalar within the digit limit is within the limits at any depth. *)
Lemma token_scalar t :
  plain_token t -> token_within max_digits t = true ->
  scalar_token max_digits t.
Proof. destruct t as [| | | | | | |[]]; cbn; by intros. Qed.

Lemma json_loads_lex text :
  json_loads max_digits max_nesting text
  = toks ← lex LStart text;
    if forallb (token_within max_digits) toks
    then parse max_nesting (PValue []) toks
    else None.
Proof.
  destruct text as [|[|p] text]; [done..|]. unfold json_loads.
  repeat (destruct p as [p|p|]; try reflexivity).
Qed.

(** What [json.loads] returns is within its limits. *)
Lemma json_loads_loadable text v :
  json_loads max_digits max_nesting text = Some v ->
  loadable max_digits max_nesting v.
Proof.
  rewrite json_loads_lex.
  destruct (lex LStart text) as [toks|] eqn:Hlex; [|done]. cbn.
  destruct (forallb _ toks) eqn:Hwithin; [|done].
  apply parse_wf; [done|].
  pose proof (lex_plain text LStart toks I Hlex) as Hplain.
  rewrite forallb_forall in Hwithin. rewrite Forall_forall in Hplain |- *.
  intros t Ht. apply token_scalar; [by apply Hplain|].
  by apply Hwithin, list_elem_of_In.
Qed.

(** The integers of a value within the limits pass the digit limit when
    they are scanned again. *)
Lemma tokens_within v : forall n,
  loadable max_digits n v ->
  forallb (token_within max_digits) (tokens v) = true.
Proof.
  induction v as [|b|z|f|s|items IH|pairs IH] using json_induction;
    intros n Hload; try reflexivity.
  - cbn in *. by rewrite Hload.
  - destruct n as [|n]; [done|]. rewrite loadable_list in Hload.
    destruct items as [|x xs]; [reflexivity|].
    apply Forall_cons in IH as [IHx IHxs].
    apply Forall_cons in Hload as [Hlx Hlxs].
    cbn [tokens]. rewrite !forallb_app, (IHx n Hlx). cbn.
    rewrite andb_true_r. clear x IHx Hlx.
    induction xs as [|y ys IHys]; [reflexivity|].
    apply Forall_cons in IHxs as [IHy IHxs].
    apply Forall_cons in Hlxs as [Hly Hlys].
    cbn [flat_map]. rewrite forallb_app. cbn [forallb token_within].
    by rewrite (IHy n Hly), IHys.
  - destruct n as [|n]; [done|]. rewrite loadable_dict in Hload.
    destruct Hload as [_ Hload].
    destruct pairs as [|[k v] pairs]; [reflexivity|].
    apply Forall_cons in IH as [IHx IHxs].
    apply Forall_cons in Hload as [Hlv Hlpairs].
    cbn [tokens fst snd] in *. rewrite !forallb_app, (IHx n Hlv). cbn.
    rewrite andb_true_r. clear k v IHx Hlv.
    induction pairs as [|[k v] ys IHys]; [reflexivity|].
    apply Forall_cons in IHxs as [IHy IHxs].
    apply Forall_cons in Hlpairs as [Hly Hlys].
    cbn [flat_map fst snd] in *. cbn [app forallb token_within].
    rewrite forallb_app. by rewrite (IHy n Hly), IHys.
Qed.

(** [json.loads(json.dumps(v, indent=2, ensure_ascii=False)) == v] for a
    value that [json.loads] has built. *)
Lemma json_loads_dumps float_repr v :
  loadable max_digits max_nesting v -> no_float_literal v = true ->
  json_loads max_digits max_nesting (json_dumps float_repr v) = Some v.
Proof.
  intros Hload Hnf. rewrite json_loads_lex. unfold json_dumps.
  rewrite <- (app_nil_r (encode float_repr 0 v)).
  rewrite (lex_encode float_repr v 0 [] []) by done. cbn [mbind option_bind].
  rewrite app_nil_r, (tokens_within v max_nesting Hload).
  rewrite <- (app_nil_r (tokens v)).
  by rewrite (parse_tokens v max_nesting []).
Qed.

End ParseFacts.

End JsonRoundTrip.

(** X13. The saved file reads back as the document that was downloaded:
    after a run that ended well, the output file is valid UTF-8 JSON, and
    [json.loads] gives for it the very value that was parsed from the
    response body, keys in the same order, provided no number of the
    document was written with a fraction or an exponent. *)
Theorem saved_file_parses_back w args s raw s1 parsed :
  (main w args s).1 = Ret tt ->
  downloaded w args s raw s1 ->
  parse_bytes w raw = Some parsed ->
  no_float_literal parsed = true ->
  exists content,
    st_fs (main w args s).2 !! args_output args = Some (File content) /\
    parse_bytes w content = Some parsed.
Proof.
  intros Hok Hdl Hparse Hnf.
  destruct (main_success w args s Hok)
    as (raw' & s1' & parsed' & content & Hdl' & Hparse' & Henc & Hfs).
  destruct (downloaded_functional w args s _ _ _ _ Hdl Hdl') as [<- <-].
  rewrite Hparse in Hparse'. injection Hparse' as <-.
  exists content. split; [by rewrite Hfs, lookup_insert_eq|].
  unfold parse_bytes in *. rewrite (utf8_decode_encode _ _ Henc).
  cbn [mbind option_bind]. apply json_loads_dumps; [|done].
  destruct (PyJson.utf8_decode raw) as [text|]; [|done].
  by apply (json_loads_loadable _ _ text).
Qed.

Lemma saved_file_parses_back_witness :
  exists content,
    st_fs (main world_up args_default no_files).2 !! args_output args_default
      = Some (File content) /\
    parse_bytes world_up content
      = Some (PyJson.JDict [(PyJson.cps "a", PyJson.JInt 1)]).
Proof.
  apply (saved_file_parses_back world_up args_default no_files body_a1
           (primary_download world_up args_default no_files).2).
  - reflexivity.
  - by constructor.
  - reflexivity.
  - reflexivity.
Defined.

(** X14. Writing is not atomic.  A run that ends with status 4 either
    could not open the destination (it is a directory, or the system
    refused) and then left every file as it was, or it had already opened
    and truncated the destination when the writing was cut short: by an
    error of the system on write, flush or close, by an error of the
    encoder, or by a character that UTF-8 cannot encode.  Then the
    destination holds what had been flushed of the new text, its former
    content is gone, and no other file changed. *)
Theorem write_failure_file_state w args s :
  exit_status (main w args s).1 = 4 ->
  exists raw s1 parsed,
    downloaded w args s raw s1 /\ parse_bytes w raw = Some parsed /\
    let out := args_output args in
    let text := PyJson.json_dumps (w_float_repr w) parsed in
    ((st_fs s !! out = Some Dir \/ is_Some (w_open_refused w out)) /\
     st_fs (main w args s).2 = st_fs s)
    \/ ((is_Some (w_write_error w out text) \/
         PyJson.utf8_encode text = None) /\
        st_fs (main w args s).2
        = <[out := File (w_flushed w text)]> (st_fs s)).
Proof.
  rewrite main_run.
  destruct (destination_blocked args s); [done|].
  destruct (fetch_outcome w args s) as [(raw & s1 & -> & Hdl)|(s1 & -> & _)];
    [|done].
  pose proof (loads_utf8_run w raw s1) as Hloads.
  destruct (parse_bytes w raw) as [parsed|] eqn:Hparse;
    [rewrite Hloads | destruct Hloads as [e ->]; done].
  intros Hstatus. exists raw, s1, parsed. split; [done|]. split; [done|].
  cbn zeta. revert Hstatus. unfold write_json, dump_text.
  rewrite (downloaded_fs _ _ _ _ _ Hdl).
  destruct (st_fs s !! args_output args) as [[old|]|] eqn:Hold.
  2: { intros _. left. split; [by left|].
       exact (downloaded_fs w args s raw s1 Hdl). }
  all: destruct (w_open_refused w (args_output args)) as [e|];
    [intros _; left; split;
       [right; by eexists | exact (downloaded_fs w args s raw s1 Hdl)]|].
  all: destruct (w_write_error w (args_output args) _) as [e|];
    [intros _; right; split; [left; by eexists | reflexivity]|].
  all: destruct (PyJson.utf8_encode _) as [content|]; [done|].
  all: intros _; right; split; [by right | reflexivity].
Qed.

Lemma write_failure_file_state_witness :
  exists raw s1 parsed,
    downloaded world_disk_full args_forced with_destination raw s1 /\
    parse_bytes world_disk_full raw = Some parsed /\
    (((st_fs with_destination !! args_output args_forced = Some Dir \/
       is_Some (w_open_refused world_disk_full (args_output args_forced))) /\
      st_fs (main world_disk_full args_forced with_destination).2
      = st_fs with_destination)
     \/ ((is_Some (w_write_error world_disk_full (args_output args_forced)
                     (PyJson.json_dumps (w_float_repr world_disk_full)
                        parsed)) \/
          PyJson.utf8_encode
            (PyJson.json_dumps (w_float_repr world_disk_full) parsed)
          = None) /\
         st_fs (main world_disk_full args_forced with_destination).2
         = <[args_output args_forced :=
               File (w_flushed world_disk_full
                       (PyJson.json_dumps (w_float_repr world_disk_full)
                          parsed))]> (st_fs with_destination))).
Proof.
  apply (write_failure_file_state world_disk_full args_forced
           with_destination).
  reflexivity.
Defined.

(** The two ways of losing the former content: the disk is full, and the
    document holds a lone surrogate.  The destination existed with the
    eight bytes of [body_a1] and is empty afterwards. *)
Example former_content_is_lost :
  st_fs with_destination !! args_output args_forced = Some (File body_a1) /\
  main world_disk_full args_forced with_destination
  = (SysExit 4,
     {| st_fs := {[ args_output args_forced := File [] ]};
        st_trace :=
          [EvUrlopen URL 15 None;
           EvStderr (MsgWriteFailed (args_output args_forced)
                       (PyError OSError
                          "[Errno 28] No space left on device"))] |}) /\
  exit_status (main world_surrogate args_forced with_destination).1 = 4 /\
  st_fs (main world_surrogate args_forced with_destination).2
    !! args_output args_forced = Some (File []).
Proof. repeat split; vm_compute; reflexivity. Qed.
